(** * new_hgt_model.py: identifier reconciliation, label encoding and the
      training driver, as a shallow embedding.

    The script reads a node table and an edge table, normalises the
    identifier columns, drops edges whose endpoints are unknown, turns
    every column into integer codes with one [LabelEncoder] per column,
    builds the tensors and trains a two layer network.

    Conventions of the embedding:
    - a Python [str] is a [string] whose characters are code points below
      256; [sorted] on such strings is the lexicographic order on code
      points, [String.compare];
    - a table is a [Frame]: the length of its index and its named columns,
      in order;
    - [print], [torch.tensor] and [optimizer.step] act on a [World];
      exceptions are values of [Exn];
    - floating point values (network weights, losses, embeddings) are not
      represented: the model records that they are produced, not what they
      are. *)

From Stdlib Require Import ZArith Ascii.
From stdpp Require Import gmap strings list sorting pretty.

(** ** Python strings *)

Module PyStr.

(** [str.isspace] on one code point below 256: TAB..CR, FS..US, SPACE,
    NEL and NBSP. *)
Definition isspace (c : ascii) : bool :=
  let n := Ascii.N_of_ascii c in
  (((9 <=? n) && (n <=? 13)) || ((28 <=? n) && (n <=? 32))
   || (n =? 133) || (n =? 160))%N.

Definition is_empty (s : string) : bool :=
  match s with EmptyString => true | String _ _ => false end.

Fixpoint lstrip (s : string) : string :=
  match s with
  | EmptyString => EmptyString
  | String c s' => if isspace c then lstrip s' else s
  end.

Fixpoint rstrip (s : string) : string :=
  match s with
  | EmptyString => EmptyString
  | String c s' =>
      let r := rstrip s' in
      if isspace c && is_empty r then EmptyString else String c r
  end.

(** [s.strip()] *)
Definition strip (s : string) : string := lstrip (rstrip s).

(** every character of [s] is whitespace *)
Fixpoint all_space (s : string) : bool :=
  match s with
  | EmptyString => true
  | String c s' => isspace c && all_space s'
  end.

(** [a <= b] on [str] *)
Definition le (a b : string) : Prop := String.leb a b = true.

(** [a < b] on [str] *)
Definition lt (a b : string) : Prop := String.ltb a b = true.

#[global] Instance le_dec a b : Decision (le a b).
Proof. unfold le. apply _. Defined.

#[global] Instance lt_dec a b : Decision (lt a b).
Proof. unfold lt. apply _. Defined.

(** [sorted(set(values))] *)
Definition sorted_set (values : list string) : list string :=
  merge_sort le (elements (list_to_set values : gset string)).

(** The characters [repr] needs by name: the two quotes and the
    backslash. *)
Definition squote : ascii := "039"%char.
Definition dquote : ascii := "034"%char.
Definition backslash : ascii := "092"%char.

(** [c in s] for one character *)
Fixpoint contains (c : ascii) (s : string) : bool :=
  match s with
  | EmptyString => false
  | String d s' => Ascii.eqb c d || contains c s'
  end.

(** [Py_hexdigits[n]] *)
Definition hex_digit (n : N) : ascii :=
  match String.get (N.to_nat n) "0123456789abcdef" with
  | Some c => c
  | None => "f"%char
  end.

(** [str.isprintable] on one code point below 256: not a control
    character, not DEL, not NBSP and not the soft hyphen. *)
Definition isprintable (c : ascii) : bool :=
  let n := Ascii.N_of_ascii c in
  negb ((n <? 32) || ((127 <=? n) && (n <=? 160)) || (n =? 173))%N.

(** what [repr] writes for one character, inside the quote [quote] *)
Definition repr_char (quote c : ascii) : string :=
  let n := Ascii.N_of_ascii c in
  if Ascii.eqb c quote || Ascii.eqb c backslash
  then String backslash (String c EmptyString)
  else if (n =? 9)%N then String backslash "t"
  else if (n =? 10)%N then String backslash "n"
  else if (n =? 13)%N then String backslash "r"
  else if isprintable c then String c EmptyString
  else String backslash
         (String "x" (String (hex_digit (n / 16)) (String (hex_digit (n mod 16))
            EmptyString))).

Fixpoint repr_chars (quote : ascii) (s : string) : string :=
  match s with
  | EmptyString => EmptyString
  | String c s' => repr_char quote c +:+ repr_chars quote s'
  end.

(** [repr(s)]: single quotes, or double quotes when [s] holds a single
    quote and no double quote; the quote in use, the backslash and the
    unprintable characters are escaped. *)
Definition repr (s : string) : string :=
  let quote :=
    if contains squote s && negb (contains dquote s) then dquote else squote in
  String quote (repr_chars quote s +:+ String quote EmptyString).

(** [str] of a list of strings: the [repr] of each, between brackets *)
Definition list_repr (l : list string) : string :=
  "[" +:+ String.concat ", " (map repr l) +:+ "]".

End PyStr.

(** ** Exceptions and results *)

(** An exception is its class and, for [KeyError] and [ValueError], its
    argument; the message of a [TypeError], which torch writes, is not
    represented. *)
Inductive Exn :=
| KeyError (key : string)
| ValueError (msg : string)
| TypeError.

Inductive Res (A : Type) :=
| Ok (a : A)
| Raise (e : Exn).
Arguments Ok {A} a.
Arguments Raise {A} e.

#[global] Instance Res_ret : MRet Res := @Ok.
#[global] Instance Res_bind : MBind Res := λ A B f r,
  match r with
  | Ok a => f a
  | Raise e => Raise e
  end.

(** ** sklearn.preprocessing.LabelEncoder on columns of strings *)

Module LabelEncoder.

(** [{val: i for i, val in enumerate(uniques)}] *)
Definition table (uniques : list string) : gmap string nat :=
  list_to_map (zip uniques (seq 0 (length uniques))).

(** [_map_to_integer]: [[table[v] for v in values]]; the first value that
    is not a key raises [KeyError]. *)
Fixpoint map_to_integer (tbl : gmap string nat) (values : list string)
  : Res (list nat) :=
  match values with
  | [] => Ok []
  | v :: rest =>
      match tbl !! v with
      | Some i => codes ← map_to_integer tbl rest; Ok (i :: codes)
      | None => Raise (KeyError v)
      end
  end.

(** [fit]: [classes_ = sorted(set(y))] *)
Definition fit (y : list string) : list string := PyStr.sorted_set y.

Definition unseen (label : string) : string :=
  "y contains previously unseen labels: " +:+ PyStr.repr label.

(** [transform]: an empty input gives an empty array; a label outside
    [classes_] turns the [KeyError] of the lookup into a [ValueError]. *)
Definition transform (classes : list string) (y : list string)
  : Res (list nat) :=
  match y with
  | [] => Ok []
  | _ =>
      match map_to_integer (table classes) y with
      | Ok codes => Ok codes
      | Raise (KeyError v) => Raise (ValueError (unseen v))
      | Raise e => Raise e
      end
  end.

(** [fit_transform]: the classes and the inverse of [_unique]. *)
Definition fit_transform (y : list string) : Res (list string * list nat) :=
  let classes := PyStr.sorted_set y in
  codes ← map_to_integer (table classes) y;
  Ok (classes, codes).

End LabelEncoder.


(** ** Tables *)

(** A value of a table as [pandas.read_csv] parses it. A float is kept as
    the text [str] prints for it; [CNaN] is a missing value. *)
Inductive Cell :=
| CStr (s : string)
| CInt (z : Z)
| CFloat (printed : string)
| CBool (b : bool)
| CNaN.

(** [str(v)], what [astype(str)] applies to every value. *)
Definition to_str (v : Cell) : string :=
  match v with
  | CStr s => s
  | CInt z => pretty z
  | CFloat printed => printed
  | CBool true => "True"
  | CBool false => "False"
  | CNaN => "nan"
  end.

(** A [DataFrame]: [nrows] is [len(df)], [columns] the named columns in
    the order of [df.columns]. *)
Record Frame (C : Type) := MkFrame {
  nrows : nat;
  columns : list (string * C)
}.
Arguments MkFrame {C} nrows columns.
Arguments nrows {C} f.
Arguments columns {C} f.

(** [df.columns] *)
Definition names {C} (df : Frame C) : list string := (columns df).*1.

Fixpoint lookup_col {C} (name : string) (cols : list (string * C)) : option C :=
  match cols with
  | [] => None
  | (n, c) :: rest => if decide (n = name) then Some c else lookup_col name rest
  end.

(** [df[name]] *)
Definition get_col {C} (name : string) (df : Frame C) : Res C :=
  match lookup_col name (columns df) with
  | Some c => Ok c
  | None => Raise (KeyError name)
  end.

Fixpoint assign_col {C} (name : string) (c : C) (cols : list (string * C))
  : list (string * C) :=
  match cols with
  | [] => [(name, c)]
  | (n, c') :: rest =>
      if decide (n = name) then (n, c) :: rest
      else (n, c') :: assign_col name c rest
  end.

(** [df[name] = c]: the column is replaced where it stands, a new name is
    appended. *)
Definition set_col {C} (name : string) (c : C) (df : Frame C) : Frame C :=
  MkFrame (nrows df) (assign_col name c (columns df)).

(** the same table with [f] applied to every column *)
Definition map_cols {A B} (f : A → B) (cols : list (string * A))
  : list (string * B) :=
  map (λ nc, (nc.1, f nc.2)) cols.

(** [df.astype(str)] on a whole table *)
Definition astype_str (df : Frame (list Cell)) : Frame (list string) :=
  MkFrame (nrows df) (map_cols (map to_str) (columns df)).

(** [series.str.strip()] *)
Definition str_strip (series : list string) : list string :=
  map PyStr.strip series.

(** [series.isin(ids)] *)
Definition isin (series : list string) (ids : gset string) : list bool :=
  map (λ v, bool_decide (v ∈ ids)) series.

(** the values of a column at the positions where the mask holds *)
Fixpoint mask_select {A} (mask : list bool) (l : list A) : list A :=
  match mask, l with
  | b :: mask', a :: l' =>
      if b then a :: mask_select mask' l' else mask_select mask' l'
  | _, _ => []
  end.

(** [df[mask]] with a boolean mask *)
Definition select_rows {A} (mask : list bool) (df : Frame (list A))
  : Frame (list A) :=
  MkFrame (length (filter (λ b, b = true) mask))
          (map_cols (mask_select mask) (columns df)).

(** ** Effects *)

(** What the script prints, one constructor per [print] statement. *)
Inductive Out :=
| OutUnique (column : string) (ids : list string)
| OutSkipping (dropped : nat)
| OutDirectComparison
| OutNotInNodes (column : string) (ids : gset string)
| OutEncodingError (msg : string)
| OutShape (tensor : string) (shape : nat * nat)
| OutEpoch (epoch : nat)
| OutEmbeddings.

(** [stdout] holds the printed lines, oldest first; [tensors] counts the
    calls of [torch.tensor], [optimizer_steps] those of [optimizer.step]. *)
Record World := MkWorld {
  stdout : list Out;
  tensors : nat;
  optimizer_steps : nat
}.

Definition initial_world : World := MkWorld [] 0 0.

Definition M (A : Type) : Type := World → Res A * World.

#[global] Instance M_ret : MRet M := λ A a w, (Ok a, w).
#[global] Instance M_bind : MBind M := λ A B f m w,
  match m w with
  | (Ok a, w') => f a w'
  | (Raise e, w') => (Raise e, w')
  end.

Definition lift {A} (r : Res A) : M A := λ w, (r, w).

Definition raise {A} (e : Exn) : M A := λ w, (Raise e, w).

Definition print (o : Out) : M unit :=
  λ w, (Ok (), MkWorld (stdout w ++ [o]) (tensors w) (optimizer_steps w)).

(** [try: c except Exception as e: ...], the outcome handed to the handler *)
Definition try {A} (c : M A) : M (Res A) :=
  λ w, let '(r, w') := c w in (Ok r, w').

(** ** load_data and preprocess *)

(** [load_data], from the two tables [read_csv] returned. *)
Definition load_data (nodes edges : Frame (list Cell))
  : M (Frame (list Cell) * Frame (list Cell)) :=
  raw ← lift (get_col "user_id" nodes);
  let user_id := str_strip (map to_str raw) in
  let nodes := set_col "user_id" (map CStr user_id) nodes in
  raw ← lift (get_col "source_id" edges);
  let source_id := str_strip (map to_str raw) in
  let edges := set_col "source_id" (map CStr source_id) edges in
  raw ← lift (get_col "target_id" edges);
  let target_id := str_strip (map to_str raw) in
  let edges := set_col "target_id" (map CStr target_id) edges in
  print (OutUnique "user_id" (PyStr.sorted_set user_id));;
  print (OutUnique "source_id" (PyStr.sorted_set source_id));;
  print (OutUnique "target_id" (PyStr.sorted_set target_id));;
  let node_ids : gset string := list_to_set user_id in
  let mask := zip_with andb (isin source_id node_ids) (isin target_id node_ids) in
  let valid_edges := select_rows mask edges in
  (if decide (nrows valid_edges ≠ nrows edges)
   then print (OutSkipping (nrows edges - nrows valid_edges))
   else mret ());;
  mret (nodes, valid_edges).

Definition preprocess (nodes edges : Frame (list Cell))
  : Frame (list string) * Frame (list string) :=
  (astype_str nodes, astype_str edges).

(** ** encode_data *)

(** A column while it is being encoded: [Text] has dtype [object] and
    holds strings, [Codes] is the integer array a [LabelEncoder] returned
    (its dtype is numeric, also when it is empty). *)
Inductive EncCol :=
| Text (values : list string)
| Codes (values : list nat).

(** The [encoders] dictionary: the [classes_] of the encoder kept under
    each column name. *)
Abbreviation Encoders := (gmap string (list string)).

(** The body of [for col in df.columns: if col not in skip and
    df[col].dtype == 'object': ...], run over the names [cols]. *)
Fixpoint encode_columns (skip : list string) (cols : list string)
    (df : Frame EncCol) (encoders : Encoders)
  : Res (Frame EncCol * Encoders) :=
  match cols with
  | [] => Ok (df, encoders)
  | col :: rest =>
      if decide (col ∈ skip) then encode_columns skip rest df encoders
      else
        c ← get_col col df;
        match c with
        | Text values =>
            '(classes, codes) ← LabelEncoder.fit_transform values;
            encode_columns skip rest (set_col col (Codes codes) df)
                           (<[col := classes]> encoders)
        | Codes _ => encode_columns skip rest df encoders
        end
  end.

(** A table of strings as [encode_data] starts from it: every column has
    dtype [object]. *)
Definition object_frame (df : Frame (list string)) : Frame EncCol :=
  MkFrame (nrows df) (map_cols Text (columns df)).

(** [encode_data], on the tables [preprocess] returned. The three
    identifier columns are read from the tables as they were passed in:
    the assignments made before each read only add or replace [user_idx]
    and [source_idx]. *)
Definition encode_data (nodes edges : Frame (list string))
  : M (Frame EncCol * Frame EncCol * Encoders) :=
  print OutDirectComparison;;
  source_id ← lift (get_col "source_id" edges);
  user_id ← lift (get_col "user_id" nodes);
  print (OutNotInNodes "source_id"
           (list_to_set source_id ∖ list_to_set user_id));;
  target_id ← lift (get_col "target_id" edges);
  print (OutNotInNodes "target_id"
           (list_to_set target_id ∖ list_to_set user_id));;
  let user_id_encoder := LabelEncoder.fit user_id in
  user_idx ← lift (LabelEncoder.transform user_id_encoder user_id);
  let nodes := set_col "user_idx" (Codes user_idx) (object_frame nodes) in
  source_idx ← lift (LabelEncoder.transform user_id_encoder source_id);
  let edges := set_col "source_idx" (Codes source_idx) (object_frame edges) in
  target_idx ← lift (LabelEncoder.transform user_id_encoder target_id);
  let edges := set_col "target_idx" (Codes target_idx) edges in
  '(nodes, encoders) ← lift (encode_columns ["user_id"] (names nodes) nodes ∅);
  '(edges, encoders) ←
    lift (encode_columns ["source_id"; "target_id"; "source_idx"; "target_idx"]
            (names edges) edges encoders);
  mret (nodes, edges, encoders).

(** ** Tensors, the network and training *)

(** A two dimensional tensor: its shape and its rows. The entries are the
    integer codes the tensor was built from. *)
Record Tensor := MkTensor {
  shape : nat * nat;
  rows : list (list nat)
}.

(** [torch_geometric.data.Data(x, edge_index, y)]; [y] is [None] when no
    target was given. *)
Record Data := MkData {
  data_x : Tensor;
  data_edge_index : Tensor;
  data_y : option Tensor
}.

(** [CustomHGTModel]: only the sizes it was built with are kept. *)
Record CustomHGTModel := MkModel {
  in_channels : nat;
  hidden_channels : nat;
  out_channels : nat;
  num_node_types : nat
}.

(** [torch.tensor(...)] of an array that was computed without error *)
Definition torch_tensor (t : Tensor) : M Tensor :=
  λ w, (Ok t, MkWorld (stdout w) (S (tensors w)) (optimizer_steps w)).

(** [optimizer.step()] *)
Definition optimizer_step : M unit :=
  λ w, (Ok (), MkWorld (stdout w) (tensors w) (S (optimizer_steps w))).

(** [df.drop(columns=labels)]: labels that are no columns are a
    [KeyError] that lists them all. *)
Definition drop_columns {C} (labels : list string) (df : Frame C)
  : Res (Frame C) :=
  match filter (λ l, l ∉ names df) labels with
  | [] => Ok (MkFrame (nrows df)
                (filter (λ nc, nc.1 ∉ labels) (columns df)))
  | missing =>
      Raise (KeyError (PyStr.list_repr missing +:+ " not found in axis"))
  end.

(** the numbers of a column handed to [torch.tensor]; strings are refused *)
Definition numeric (c : EncCol) : Res (list nat) :=
  match c with
  | Codes values => Ok values
  | Text _ => Raise TypeError
  end.

Fixpoint numeric_columns (cols : list (string * EncCol)) : Res (list (list nat)) :=
  match cols with
  | [] => Ok []
  | (_, c) :: rest =>
      v ← numeric c; vs ← numeric_columns rest; Ok (v :: vs)
  end.

(** [df.values], row by row *)
Definition frame_values (df : Frame EncCol) : Res Tensor :=
  cols ← numeric_columns (columns df);
  Ok (MkTensor (nrows df, length cols)
        (map (λ i, map (λ c : list nat, c !!! i) cols) (seq 0 (nrows df)))).

(** The epochs [first, first + n) of the loop in [train_model]. The calls
    into torch inside one epoch (forward pass, loss, backward pass) are
    taken to return. *)
Fixpoint train_epochs (first n : nat) : M unit :=
  match n with
  | 0 => mret ()
  | S n' =>
      optimizer_step;;
      print (OutEpoch (first + 1));;
      train_epochs (S first) n'
  end.

Definition train_model (model : CustomHGTModel) (data : Data) (epochs : nat)
  : M CustomHGTModel :=
  match data_y data with
  | None => raise (ValueError "Target data (y) is missing from the dataset.")
  | Some _ =>
      train_epochs 0 epochs;;
      mret model
  end.

(** ** main *)

(** The tensors, the model and the training run: what [main] does with the
    encoded tables once [encode_data] has returned. *)
Definition build_and_train (nodes edges : Frame EncCol) : M unit :=
  features ← lift (df ← drop_columns ["user_id"; "user_idx"] nodes;
                   frame_values df);
  node_features ← torch_tensor features;
  source_idx ← lift (c ← get_col "source_idx" edges; numeric c);
  target_idx ← lift (c ← get_col "target_idx" edges; numeric c);
  edge_index ← torch_tensor
    (MkTensor (2, length source_idx) [source_idx; target_idx]);
  print (OutShape "node_features" (shape node_features));;
  print (OutShape "edge_index" (shape edge_index));;
  risk ← lift (c ← get_col "reported_risk" nodes; numeric c);
  y ← torch_tensor (MkTensor (length risk, 1) (map (λ v, [v]) risk));
  let data := MkData node_features edge_index (Some y) in
  let num_node_types := 1 in
  let model := MkModel (shape node_features).2 32 64 num_node_types in
  trained_model ← train_model model data 10;
  print OutEmbeddings.

(** [main] from the [try] statement on, for the tables [preprocess]
    returned: a [ValueError] of [encode_data] is printed and [main]
    returns; any other exception propagates. *)
Definition encode_and_train (nodes edges : Frame (list string)) : M unit :=
  encoded ← try (encode_data nodes edges);
  match encoded with
  | Raise (ValueError e) => print (OutEncodingError e)
  | Raise e => raise e
  | Ok (nodes, edges, encoders) => build_and_train nodes edges
  end.

(** [main], from the tables [read_csv] returns for the two fixed paths. *)
Definition main (nodes_csv edges_csv : Frame (list Cell)) : M unit :=
  '(nodes, edges) ← load_data nodes_csv edges_csv;
  let '(nodes, edges) := preprocess nodes edges in
  encode_and_train nodes edges.

(** ** Vocabulary of the statements *)

Definition codes_of (values : list string) : list nat :=
  omap (λ v, LabelEncoder.table (PyStr.sorted_set values) !! v) values.

Definition encode_one (skip cols : list string) (nc : string * EncCol)
  : string * EncCol :=
  match nc.2 with
  | Text values =>
      if decide (nc.1 ∈ cols ∧ nc.1 ∉ skip)
      then (nc.1, Codes (codes_of values)) else nc
  | Codes _ => nc
  end.

Definition printed (w : World) (outs : list Out) : World :=
  MkWorld (stdout w ++ outs) (tensors w) (optimizer_steps w).

Definition normalize (raw : list Cell) : list string :=
  str_strip (map to_str raw).

Definition valid_mask (user_id source_id target_id : list string) : list bool :=
  zip_with andb (isin source_id (list_to_set user_id))
                (isin target_id (list_to_set user_id)).

Definition normalized_edges (edges : Frame (list Cell)) (s t : list Cell)
  : Frame (list Cell) :=
  set_col "target_id" (map CStr (normalize t))
    (set_col "source_id" (map CStr (normalize s)) edges).

Definition indexed_nodes (nodes : Frame (list string)) (user_idx : list nat)
  : Frame EncCol :=
  set_col "user_idx" (Codes user_idx) (object_frame nodes).

Definition indexed_edges (edges : Frame (list string))
    (source_idx target_idx : list nat) : Frame EncCol :=
  set_col "target_idx" (Codes target_idx)
    (set_col "source_idx" (Codes source_idx) (object_frame edges)).

Definition edge_skip : list string :=
  ["source_id"; "target_id"; "source_idx"; "target_idx"].

Definition comparison_lines (u s t : list string) : list Out :=
  [OutDirectComparison;
   OutNotInNodes "source_id" (list_to_set s ∖ list_to_set u);
   OutNotInNodes "target_id" (list_to_set t ∖ list_to_set u)].

(** [node_ids = set(nodes['user_id'])] after normalisation *)
Definition node_id_set (raw_user_id : list Cell) : gset string :=
  list_to_set (normalize raw_user_id).

(** an edge, as its pair of normalised endpoints, is valid *)
Definition valid_edge (node_ids : gset string) (st : string * string) : Prop :=
  st.1 ∈ node_ids ∧ st.2 ∈ node_ids.

#[global] Instance valid_edge_dec node_ids st : Decision (valid_edge node_ids st).
Proof. unfold valid_edge. apply _. Defined.

Definition C1_nodes : Frame (list Cell) :=
  MkFrame 2 [("user_id", [CStr "A"; CStr "B"]); ("risk", [CInt 1; CInt 2])].

Definition C1_edges : Frame (list Cell) :=
  MkFrame 2 [("source_id", [CStr "A"; CStr "A"]);
             ("target_id", [CStr "B"; CStr "C"])].

Definition C9_nodes : Frame (list Cell) :=
  MkFrame 3 [("user_id", [CStr " A"; CStr "B "; CInt 7]);
             ("reported_risk", [CInt 1; CInt 2; CNaN])].

Definition C9_edges : Frame (list Cell) :=
  MkFrame 2 [("source_id", [CStr "A"; CStr "X"]);
             ("target_id", [CStr "Y"; CStr "Z"])].

Definition C4_nodes : Frame (list Cell) :=
  MkFrame 2 [("user_id", [CStr "A"; CStr "B"]); ("reported_risk", [CInt 1; CInt 2])].

Definition C4_edges : Frame (list Cell) :=
  MkFrame 2 [("source_id", [CStr "A"; CStr "A"]);
             ("target_id", [CStr "B"; CStr "C"])].

(** [codes] are the codes of [values] under one bijective mapping: equal
    values have equal codes, distinct values distinct codes, and the codes
    used are exactly [0 .. k-1] for the [k] distinct values. *)
Definition bijective_codes (values : list string) (codes : list nat) : Prop :=
  length codes = length values
  ∧ (∀ p q a b i j,
       values !! p = Some a → values !! q = Some b →
       codes !! p = Some i → codes !! q = Some j → (a = b ↔ i = j))
  ∧ (∀ k, k ∈ codes ↔ k < length (LabelEncoder.fit values)).

Definition C2_nodes : Frame (list string) :=
  MkFrame 3 [("user_id", ["carol"; "alice"; "bob"]); ("reported_risk", ["1"; "2"; "3"])].

Definition C2_edges : Frame (list string) :=
  MkFrame 1 [("source_id", ["bob"]); ("target_id", ["carol"])].

Definition C7_nodes : Frame (list string) :=
  MkFrame 3 [("user_id", ["A"; "B"; "C"]);
             ("region", ["east"; "west"; "east"]);
             ("home", ["west"; "zulu"; "west"])].

Definition C7_edges : Frame (list string) :=
  MkFrame 2 [("source_id", ["A"; "B"]); ("target_id", ["B"; "C"]);
             ("channel", ["west"; "app"])].

(** [a] and [b] are one string between two paddings of whitespace *)
Definition differ_by_outer_whitespace (a b : string) : Prop :=
  ∃ l r l' r' core,
    PyStr.all_space l = true ∧ PyStr.all_space r = true
    ∧ PyStr.all_space l' = true ∧ PyStr.all_space r' = true
    ∧ a = l +:+ core +:+ r ∧ b = l' +:+ core +:+ r'.

(** the characters [str.strip] removes, as Python lists them: TAB, LF, VT,
    FF, CR, FS, GS, RS, US, SPACE, NEL and NBSP *)
Definition python_whitespace : list ascii :=
  ["009"; "010"; "011"; "012"; "013"; "028"; "029"; "030"; "031"; " ";
   "133"; "160"]%char.

Definition first_char (s : string) : option ascii :=
  match s with
  | EmptyString => None
  | String c _ => Some c
  end.

Fixpoint last_char (s : string) : option ascii :=
  match s with
  | EmptyString => None
  | String c s' =>
      match last_char s' with
      | Some d => Some d
      | None => Some c
      end
  end.

(** [s] neither starts nor ends with whitespace *)
Definition no_outer_space (s : string) : bool :=
  match first_char s, last_char s with
  | Some a, Some b => negb (PyStr.isspace a) && negb (PyStr.isspace b)
  | _, _ => true
  end.

(** two values of an identifier column whose texts differ only by
    leading or trailing whitespace *)
Definition same_identifier (x y : Cell) : Prop :=
  differ_by_outer_whitespace (to_str x) (to_str y).

Definition C8_nodes : Frame (list Cell) :=
  MkFrame 2 [("user_id", [CStr "abc "; CInt 7]); ("reported_risk", [CInt 1; CInt 2])].

Definition C8_edges : Frame (list Cell) :=
  MkFrame 2 [("source_id", [CStr " abc"; CStr "abd"]);
             ("target_id", [CStr "7 "; CStr "abc"])].

Definition C6_nodes : Frame (list string) :=
  MkFrame 2 [("user_id", ["A"; "B"]); ("reported_risk", ["1"; "2"])].

Definition C6_edges : Frame (list string) :=
  MkFrame 2 [("source_id", ["A"; "A"]); ("target_id", ["B"; "C"])].

(** [main] up to the return of [encode_data] *)
Definition encoded_tables (nodes_csv edges_csv : Frame (list Cell))
  : M (Frame EncCol * Frame EncCol * Encoders) :=
  '(nodes, edges) ← load_data nodes_csv edges_csv;
  let '(nodes, edges) := preprocess nodes edges in
  encode_data nodes edges.

(** the array [main] turns into [node_features] *)
Definition feature_rows (nodes : Frame EncCol) : Res Tensor :=
  df ← drop_columns ["user_id"; "user_idx"] nodes; frame_values df.

Definition C3_nodes : Frame (list Cell) :=
  MkFrame 2 [("user_id", [CStr "B"; CStr "A"]);
             ("reported_risk", [CInt 10; CInt 20])].

Definition C3_edges : Frame (list Cell) :=
  MkFrame 1 [("source_id", [CStr "A"]); ("target_id", [CStr "B"])].

Definition C5_no_rows : Frame (list Cell) :=
  MkFrame 0 [("user_id", []); ("reported_risk", [])].

Definition C5_blank_target : Frame (list Cell) :=
  MkFrame 2 [("user_id", [CStr "A"; CStr "B"]); ("reported_risk", [CNaN; CNaN])].

Definition C5_no_target : Frame (list Cell) :=
  MkFrame 2 [("user_id", [CStr "A"; CStr "B"]); ("age", [CInt 30; CInt 40])].

Definition C5_edges : Frame (list Cell) :=
  MkFrame 0 [("source_id", []); ("target_id", [])].

(** every column of the table has one value per row *)
Definition well_formed {A} (df : Frame (list A)) : Prop :=
  Forall (λ nc : string * list A, length nc.2 = nrows df) (columns df).

#[global] Instance well_formed_dec {A} (df : Frame (list A)) :
  Decision (well_formed df).
Proof. unfold well_formed. apply _. Defined.

Definition X1_nodes : Frame (list Cell) :=
  MkFrame 1 [("id", [CStr "A"]); ("reported_risk", [CInt 1])].

Definition X1_edges : Frame (list Cell) :=
  MkFrame 1 [("source_id", [CStr "A"]); ("target", [CStr "A"])].

(** the entry a loop over [cols] leaves under [col] in the dictionary *)
Definition encoder_entry (skip cols : list string) (df : Frame EncCol)
    (encoders : Encoders) (col : string) : option (list string) :=
  match lookup_col col (columns df) with
  | Some (Text values) =>
      if decide (col ∈ cols ∧ col ∉ skip)
      then Some (LabelEncoder.fit values) else encoders !! col
  | _ => encoders !! col
  end.

(** the entry the loop over the node columns leaves under [col] *)
Definition node_encoder_entry (nodes : Frame (list string)) (col : string)
  : option (list string) :=
  match lookup_col col (columns nodes) with
  | Some values =>
      if decide (col ∉ ["user_id"; "user_idx"])
      then Some (LabelEncoder.fit values) else None
  | None => None
  end.

(** the entry of the dictionary [encode_data] returns, read off the two
    tables it was given: the loop over the edge columns runs last *)
Definition encoders_entry (nodes edges : Frame (list string)) (col : string)
  : option (list string) :=
  match lookup_col col (columns edges) with
  | Some values =>
      if decide (col ∉ edge_skip) then Some (LabelEncoder.fit values)
      else node_encoder_entry nodes col
  | None => node_encoder_entry nodes col
  end.

Definition X5_nodes : Frame (list string) :=
  MkFrame 2 [("user_id", ["A"; "B"]); ("kind", ["x"; "y"])].

Definition X5_edges : Frame (list string) :=
  MkFrame 1 [("source_id", ["A"]); ("target_id", ["B"]); ("kind", ["z"])].

(** * Properties *)

Lemma ascii_compare_refl c : Ascii.compare c c = Eq.
Proof. unfold Ascii.compare. apply N.compare_refl. Qed.

Lemma ascii_compare_eq c d : Ascii.compare c d = Eq → c = d.
Proof. apply Ascii.compare_eq_iff. Qed.

Lemma ascii_compare_lt_trans a b c :
  Ascii.compare a b = Lt → Ascii.compare b c = Lt → Ascii.compare a c = Lt.
Proof.
  unfold Ascii.compare. rewrite !N.compare_lt_iff. lia.
Qed.

Lemma compare_lt_trans a : ∀ b c,
  String.compare a b = Lt → String.compare b c = Lt → String.compare a c = Lt.
Proof.
  induction a as [|x a IH]; intros [|y b] [|z c]; simpl; try done.
  destruct (Ascii.compare x y) eqn:Hxy; try done.
  - apply ascii_compare_eq in Hxy as ->.
    destruct (Ascii.compare y z); try done. apply IH.
  - intros _. destruct (Ascii.compare y z) eqn:Hyz; try done.
    + apply ascii_compare_eq in Hyz as <-. by rewrite Hxy.
    + by rewrite (ascii_compare_lt_trans _ _ _ Hxy Hyz).
Qed.

Lemma compare_refl a : String.compare a a = Eq.
Proof. induction a as [|c a IH]; simpl; [done|]. by rewrite ascii_compare_refl. Qed.

Lemma lt_compare a b : PyStr.lt a b ↔ String.compare a b = Lt.
Proof. unfold PyStr.lt, String.ltb. destruct (String.compare a b); naive_solver. Qed.

Lemma le_compare a b : PyStr.le a b ↔ String.compare a b ≠ Gt.
Proof. unfold PyStr.le, String.leb. destruct (String.compare a b); naive_solver. Qed.

Lemma le_lt_or_eq a b : PyStr.le a b ↔ PyStr.lt a b ∨ a = b.
Proof.
  rewrite le_compare, lt_compare. split.
  - destruct (String.compare a b) eqn:H; try done; [right|left; done].
    by apply String.compare_eq_iff.
  - intros [->| ->]; [done|]. by rewrite compare_refl.
Qed.

Lemma lt_irrefl a : ¬ PyStr.lt a a.
Proof. rewrite lt_compare, compare_refl. done. Qed.

#[global] Instance lt_trans : Transitive PyStr.lt.
Proof. intros a b c. rewrite !lt_compare. apply compare_lt_trans. Qed.

#[global] Instance le_trans : Transitive PyStr.le.
Proof.
  intros a b c. rewrite !le_lt_or_eq.
  intros [?| ->] [?| ->]; auto. left. by etrans.
Qed.

#[global] Instance le_total : Total PyStr.le.
Proof. intros a b. apply String.leb_total. Qed.

#[global] Instance le_antisym : AntiSymm (=) PyStr.le.
Proof. intros a b. apply String.leb_antisym. Qed.

Lemma elem_of_sorted_set l v : v ∈ PyStr.sorted_set l ↔ v ∈ l.
Proof.
  unfold PyStr.sorted_set. rewrite merge_sort_Permutation.
  rewrite elem_of_elements. apply elem_of_list_to_set.
Qed.

Lemma NoDup_sorted_set l : NoDup (PyStr.sorted_set l).
Proof.
  unfold PyStr.sorted_set. rewrite merge_sort_Permutation. apply NoDup_elements.
Qed.

Lemma sorted_set_sorted l : StronglySorted PyStr.le (PyStr.sorted_set l).
Proof. apply StronglySorted_merge_sort; apply _. Qed.

Lemma sorted_set_lookup_lt l i j a b :
  PyStr.sorted_set l !! i = Some a → PyStr.sorted_set l !! j = Some b →
  i < j → PyStr.lt a b.
Proof.
  intros Hi Hj Hij.
  pose proof (sorted_set_sorted l) as Hs. pose proof (NoDup_sorted_set l) as Hn.
  assert (PyStr.le a b) as Hle.
  { revert Hs. generalize (PyStr.sorted_set l) i j Hi Hj Hij. clear.
    intros cs. induction cs as [|c cs IH]; intros [|i] [|j] Hi Hj Hij Hs;
      simplify_eq/=; try lia.
    - apply StronglySorted_inv in Hs as [_ Hall].
      rewrite Forall_forall in Hall. apply Hall. by eapply list_elem_of_lookup_2.
    - apply StronglySorted_inv in Hs as [Hs _]. eapply IH; eauto. lia. }
  apply le_lt_or_eq in Hle as [?| ->]; [done|].
  pose proof (NoDup_lookup _ _ _ _ Hn Hi Hj). lia.
Qed.

Lemma table_fst (cs : list string) : (zip cs (seq 0 (length cs))).*1 = cs.
Proof. apply fst_zip. by rewrite length_seq. Qed.

Lemma elem_of_enumerate (cs : list string) v i :
  (v, i) ∈ zip cs (seq 0 (length cs)) ↔ cs !! i = Some v.
Proof.
  rewrite list_elem_of_lookup. split.
  - intros [k Hk]. apply lookup_zip_with_Some in Hk as (a & b & ? & Ha & Hb).
    simplify_eq. apply lookup_seq in Hb as [-> _]. done.
  - intros Hi. exists i. apply lookup_zip_with_Some. exists v, i.
    split_and!; [done..|]. apply lookup_seq. split; [done|].
    by eapply lookup_lt_Some.
Qed.

Lemma table_lookup cs v i :
  NoDup cs → LabelEncoder.table cs !! v = Some i ↔ cs !! i = Some v.
Proof.
  intros Hn. unfold LabelEncoder.table.
  rewrite <-elem_of_list_to_map; [|by rewrite table_fst].
  apply elem_of_enumerate.
Qed.

Lemma table_None cs v : LabelEncoder.table cs !! v = None ↔ v ∉ cs.
Proof.
  unfold LabelEncoder.table. rewrite <-not_elem_of_list_to_map.
  by rewrite table_fst.
Qed.

Lemma table_is_Some cs v : is_Some (LabelEncoder.table cs !! v) ↔ v ∈ cs.
Proof.
  rewrite <-not_eq_None_Some, table_None. split; [|naive_solver].
  intros H. by destruct (decide (v ∈ cs)).
Qed.

Lemma map_to_integer_ok tbl vs :
  Forall (λ v, is_Some (tbl !! v)) vs →
  ∃ codes, LabelEncoder.map_to_integer tbl vs = Ok codes
           ∧ Forall2 (λ v i, tbl !! v = Some i) vs codes.
Proof.
  induction 1 as [|v vs [i Hi] _ (codes & Hc & Hf)]; simpl.
  - by exists [].
  - rewrite Hi, Hc. exists (i :: codes). split; [done|]. by constructor.
Qed.

Lemma map_to_integer_unseen tbl vs :
  Exists (λ v, tbl !! v = None) vs →
  ∃ v, v ∈ vs ∧ tbl !! v = None
       ∧ LabelEncoder.map_to_integer tbl vs = Raise (KeyError v).
Proof.
  induction vs as [|v vs IH]; intros Hex; [by apply Exists_nil in Hex|].
  simpl. destruct (tbl !! v) as [i|] eqn:Hv.
  - apply Exists_cons in Hex as [?|Hex]; [congruence|].
    destruct (IH Hex) as (u & ? & ? & ->). exists u. split_and!; try done.
    by right.
  - exists v. split_and!; try done. by left.
Qed.

Lemma transform_ok cs ys :
  ys ⊆ cs →
  ∃ codes, LabelEncoder.transform cs ys = Ok codes
           ∧ Forall2 (λ v i, LabelEncoder.table cs !! v = Some i) ys codes.
Proof.
  intros Hsub.
  destruct (map_to_integer_ok (LabelEncoder.table cs) ys) as (codes & Hc & Hf).
  { apply Forall_forall. intros v Hv. apply table_is_Some. by apply Hsub. }
  exists codes. split; [|done]. unfold LabelEncoder.transform.
  rewrite Hc. destruct ys; [|done]. simpl in Hc. by simplify_eq.
Qed.

Lemma transform_unseen cs ys :
  Exists (λ v, v ∉ cs) ys →
  ∃ v, v ∈ ys ∧ (v ∉ cs)
       ∧ LabelEncoder.transform cs ys = Raise (ValueError (LabelEncoder.unseen v)).
Proof.
  intros Hex.
  destruct (map_to_integer_unseen (LabelEncoder.table cs) ys) as (v & Hv & Hn & Hr).
  { eapply Exists_impl; [done|]. intros v. by rewrite table_None. }
  exists v. split_and!; [done|by apply table_None|].
  unfold LabelEncoder.transform. rewrite Hr. destruct ys; [|done].
  by apply elem_of_nil in Hv.
Qed.

Lemma fit_transform_ok ys :
  ∃ codes, LabelEncoder.fit_transform ys = Ok (PyStr.sorted_set ys, codes)
           ∧ Forall2 (λ v i, PyStr.sorted_set ys !! i = Some v) ys codes.
Proof.
  destruct (map_to_integer_ok (LabelEncoder.table (PyStr.sorted_set ys)) ys)
    as (codes & Hc & Hf).
  { apply Forall_forall. intros v Hv. apply table_is_Some.
    by apply elem_of_sorted_set. }
  exists codes. unfold LabelEncoder.fit_transform. rewrite Hc. split; [done|].
  eapply Forall2_impl; [done|]. intros v i. simpl.
  apply table_lookup, NoDup_sorted_set.
Qed.

Lemma fit_indices ids :
  ∃ codes, LabelEncoder.transform (LabelEncoder.fit ids) ids = Ok codes
           ∧ Forall2 (λ v i, LabelEncoder.fit ids !! i = Some v) ids codes.
Proof.
  destruct (transform_ok (LabelEncoder.fit ids) ids) as (codes & Hc & Hf).
  { intros v. unfold LabelEncoder.fit. by rewrite elem_of_sorted_set. }
  exists codes. split; [done|]. eapply Forall2_impl; [done|].
  intros v i. simpl. apply table_lookup, NoDup_sorted_set.
Qed.

Lemma sorted_set_Permutation ids : NoDup ids → PyStr.sorted_set ids ≡ₚ ids.
Proof.
  intros Hn. apply NoDup_Permutation; [apply NoDup_sorted_set|done|].
  apply elem_of_sorted_set.
Qed.

(** codes of pairwise distinct labels: no collision, and exactly 0..n-1 *)
Lemma distinct_codes_bijective ids codes :
  NoDup ids →
  Forall2 (λ v i, PyStr.sorted_set ids !! i = Some v) ids codes →
  NoDup codes ∧ ∀ k, k ∈ codes ↔ k < length ids.
Proof.
  intros Hn Hf. split.
  - apply NoDup_alt. intros p q k Hp Hq.
    destruct (Forall2_lookup_r _ _ _ _ _ Hf Hp) as (a & Ha & Hka).
    destruct (Forall2_lookup_r _ _ _ _ _ Hf Hq) as (b & Hb & Hkb).
    simplify_eq. by eapply NoDup_lookup.
  - intros k. rewrite <-(Permutation_length (sorted_set_Permutation ids Hn)).
    split.
    + intros (p & Hp)%list_elem_of_lookup.
      destruct (Forall2_lookup_r _ _ _ _ _ Hf Hp) as (a & Ha & Hka).
      by eapply lookup_lt_Some.
    + intros (v & Hv)%lookup_lt_is_Some.
      assert (v ∈ ids) as (p & Hp)%list_elem_of_lookup.
      { apply elem_of_sorted_set. by eapply list_elem_of_lookup_2. }
      destruct (Forall2_lookup_l _ _ _ _ _ Hf Hp) as (i & Hi & Hvi).
      assert (i = k) as ->.
      { eapply (NoDup_lookup (PyStr.sorted_set ids)); eauto using NoDup_sorted_set. }
      by eapply list_elem_of_lookup_2.
Qed.

Section columns.
Context {C : Type}.
Implicit Types (cols : list (string * C)) (c : C) (n m : string).

Lemma lookup_assign_eq n c cols : lookup_col n (assign_col n c cols) = Some c.
Proof.
  induction cols as [|[k c'] cols IH]; simpl.
  - by rewrite decide_True.
  - destruct (decide (k = n)) as [->|]; simpl; [by rewrite decide_True|].
    by rewrite decide_False.
Qed.

Lemma lookup_assign_ne n m c cols :
  n ≠ m → lookup_col m (assign_col n c cols) = lookup_col m cols.
Proof.
  intros Hne. induction cols as [|[k c'] cols IH]; simpl.
  - by rewrite decide_False.
  - destruct (decide (k = n)) as [->|]; simpl.
    + by rewrite !decide_False.
    + by rewrite IH.
Qed.

Lemma lookup_col_is_Some n cols : is_Some (lookup_col n cols) ↔ n ∈ cols.*1.
Proof.
  induction cols as [|[k c'] cols IH]; simpl.
  - rewrite elem_of_nil. split; [by intros []|done].
  - rewrite elem_of_cons. destruct (decide (k = n)) as [->|]; [naive_solver|].
    rewrite IH. naive_solver.
Qed.

Lemma lookup_col_None n cols : lookup_col n cols = None ↔ n ∉ cols.*1.
Proof. rewrite <-lookup_col_is_Some, eq_None_not_Some. done. Qed.

Lemma lookup_col_elem_of n c cols : lookup_col n cols = Some c → (n, c) ∈ cols.
Proof.
  induction cols as [|[k c'] cols IH]; simpl; [done|].
  destruct (decide (k = n)) as [->|]; [intros [= ->]; by left|].
  intros. right. auto.
Qed.

Lemma lookup_col_NoDup n c cols :
  NoDup cols.*1 → (n, c) ∈ cols → lookup_col n cols = Some c.
Proof.
  induction cols as [|[k c'] cols IH]; simpl; [by intros _ ?%elem_of_nil|].
  intros [Hk Hn]%NoDup_cons [Heq|Hin]%elem_of_cons.
  - simplify_eq. by rewrite decide_True.
  - rewrite decide_False; [auto|]. intros ->. apply Hk.
    apply list_elem_of_fmap. by exists (n, c).
Qed.

Lemma names_assign_elem_of n c cols :
  n ∈ cols.*1 → (assign_col n c cols).*1 = cols.*1.
Proof.
  induction cols as [|[k c'] cols IH]; simpl; [by intros ?%elem_of_nil|].
  destruct (decide (k = n)) as [->|]; simpl; [done|].
  intros [?|?]%elem_of_cons; [done|]. f_equal. auto.
Qed.

Lemma names_assign_fresh n c cols :
  n ∉ cols.*1 → (assign_col n c cols).*1 = cols.*1 ++ [n].
Proof.
  induction cols as [|[k c'] cols IH]; simpl; [done|].
  intros [? ?]%not_elem_of_cons.
  rewrite decide_False by done. simpl. f_equal. auto.
Qed.

Lemma names_assign_subseteq n c cols : cols.*1 ⊆ (assign_col n c cols).*1.
Proof.
  destruct (decide (n ∈ cols.*1)).
  - by rewrite names_assign_elem_of.
  - rewrite names_assign_fresh by done. set_solver.
Qed.

Lemma assign_assign n c c0 cols :
  assign_col n c (assign_col n c0 cols) = assign_col n c cols.
Proof.
  induction cols as [|[k c'] cols IH]; simpl.
  - by rewrite decide_True.
  - destruct (decide (k = n)) as [->|]; simpl.
    + by rewrite decide_True.
    + rewrite decide_False by done. by rewrite IH.
Qed.

Lemma assign_swap n m x s t cols :
  n ≠ m →
  assign_col n x (assign_col m t (assign_col n s cols))
  = assign_col m t (assign_col n x cols).
Proof.
  intros Hne. induction cols as [|[k c'] cols IH]; simpl;
    repeat (case_decide; simplify_eq/=); try done.
  - by rewrite assign_assign.
  - by rewrite IH.
Qed.

Lemma length_assign_elem_of n c cols :
  n ∈ cols.*1 → length (assign_col n c cols) = length cols.
Proof. intros H. by rewrite <-!(length_fmap fst), names_assign_elem_of. Qed.

End columns.

Lemma lookup_map_cols {A B} (f : A → B) n (cols : list (string * A)) :
  lookup_col n (map_cols f cols) = f <$> lookup_col n cols.
Proof.
  induction cols as [|[k c] cols IH]; simpl; [done|].
  destruct (decide (k = n)); [done|]. apply IH.
Qed.

Lemma names_map_cols {A B} (f : A → B) (cols : list (string * A)) :
  (map_cols f cols).*1 = cols.*1.
Proof. induction cols as [|[k c] cols IH]; simpl; [done|]. by f_equal. Qed.

Lemma get_col_Ok {C} n (df : Frame C) c :
  get_col n df = Ok c ↔ lookup_col n (columns df) = Some c.
Proof. unfold get_col. destruct (lookup_col n (columns df)); naive_solver. Qed.

Lemma get_col_KeyError {C} n (df : Frame C) :
  n ∉ names df → get_col n df = Raise (KeyError n).
Proof.
  intros H%lookup_col_None. unfold get_col. by rewrite H.
Qed.

Lemma get_col_elem_of {C} n (df : Frame C) :
  n ∈ names df → ∃ c, get_col n df = Ok c.
Proof.
  intros [c Hc]%lookup_col_is_Some. exists c. by apply get_col_Ok.
Qed.

Lemma codes_of_spec (tbl : gmap string nat) (vs : list string) codes :
  Forall2 (λ v i, tbl !! v = Some i) vs codes → omap (λ v, tbl !! v) vs = codes.
Proof. induction 1 as [|v i vs codes Hv _ IH]; csimpl; [done|]. by rewrite Hv, IH. Qed.

Lemma fit_transform_codes_of ys :
  LabelEncoder.fit_transform ys = Ok (PyStr.sorted_set ys, codes_of ys).
Proof.
  destruct (map_to_integer_ok (LabelEncoder.table (PyStr.sorted_set ys)) ys)
    as (codes & Hc & Hf).
  { apply Forall_forall. intros v Hv. apply table_is_Some.
    by apply elem_of_sorted_set. }
  unfold LabelEncoder.fit_transform. rewrite Hc. simpl.
  do 2 f_equal. symmetry. by apply codes_of_spec.
Qed.

Lemma codes_of_lookup ys :
  Forall2 (λ v i, PyStr.sorted_set ys !! i = Some v) ys (codes_of ys).
Proof.
  destruct (fit_transform_ok ys) as (codes & Hc & Hf).
  rewrite fit_transform_codes_of in Hc. by simplify_eq.
Qed.

Lemma encode_columns_total skip cols : ∀ df encs,
  cols ⊆ names df →
  ∃ df' encs',
    encode_columns skip cols df encs = Ok (df', encs')
    ∧ nrows df' = nrows df
    ∧ names df' = names df
    ∧ (∀ n v, lookup_col n (columns df) = Some (Codes v) →
              lookup_col n (columns df') = Some (Codes v))
    ∧ (∀ n, n ∈ skip → lookup_col n (columns df') = lookup_col n (columns df)).
Proof.
  induction cols as [|col rest IH]; intros df encs Hsub; simpl.
  { by exists df, encs. }
  assert (col ∈ names df) as Hcol by (apply Hsub; by left).
  assert (rest ⊆ names df) as Hrest by (intros n ?; apply Hsub; by right).
  destruct (decide (col ∈ skip)) as [Hskip|Hskip]; [by apply IH|].
  destruct (get_col_elem_of _ _ Hcol) as [c Hc]. rewrite Hc. simpl.
  destruct c as [values|values]; [|by apply IH].
  rewrite fit_transform_codes_of. simpl.
  set (df2 := set_col col (Codes (codes_of values)) df).
  assert (names df2 = names df) as Hnames.
  { unfold names, df2. simpl. by apply names_assign_elem_of. }
  destruct (IH df2 (<[col:=PyStr.sorted_set values]> encs))
    as (df' & encs' & -> & Hrows & Hn & Hcodes & Hsk).
  { by rewrite Hnames. }
  exists df', encs'. split_and!; [done|done|by rewrite Hn|..].
  - intros n v Hnv. apply Hcodes. unfold df2. simpl.
    rewrite lookup_assign_ne; [done|]. intros <-.
    apply get_col_Ok in Hc. congruence.
  - intros n Hns. rewrite Hsk by done. unfold df2. simpl.
    apply lookup_assign_ne. by intros <-.
Qed.

Lemma encode_one_skip skip col rest nc :
  col ∈ skip → encode_one skip (col :: rest) nc = encode_one skip rest nc.
Proof.
  intros Hskip. unfold encode_one. destruct nc.2; [|done].
  apply decide_ext. rewrite elem_of_cons. naive_solver.
Qed.

Lemma map_encode_one_assign skip col rest values (cols : list (string * EncCol)) :
  NoDup cols.*1 → col ∉ rest → col ∉ skip →
  lookup_col col cols = Some (Text values) →
  map (encode_one skip rest) (assign_col col (Codes (codes_of values)) cols)
  = map (encode_one skip (col :: rest)) cols.
Proof.
  intros Hn Hrest Hskip.
  induction cols as [|[k c] cols IH]; csimpl; [done|].
  apply NoDup_cons in Hn as [Hk Hn].
  destruct (decide (k = col)) as [->|Hne].
  - intros [= ->]. csimpl. f_equal.
    + unfold encode_one at 2. csimpl. rewrite decide_True; [done|].
      split; [set_solver|done].
    + apply map_ext_in. intros [k c] Hin%list_elem_of_In.
      unfold encode_one. csimpl. destruct c; [|done].
      apply decide_ext. rewrite elem_of_cons.
      assert (k ≠ col); [|naive_solver].
      intros ->. apply Hk. by apply (list_elem_of_fmap_2 fst) in Hin.
  - intros Hl. csimpl. f_equal; [|by apply IH].
    unfold encode_one. csimpl. destruct c; [|done].
    apply decide_ext. rewrite elem_of_cons. naive_solver.
Qed.

Lemma map_encode_one_codes skip col rest values (cols : list (string * EncCol)) :
  NoDup cols.*1 →
  lookup_col col cols = Some (Codes values) →
  map (encode_one skip rest) cols = map (encode_one skip (col :: rest)) cols.
Proof.
  intros Hn Hl. apply map_ext_in. intros [k c] Hin%list_elem_of_In.
  unfold encode_one. simpl. destruct c as [v|v]; [|done].
  apply decide_ext. rewrite elem_of_cons.
  assert (k ≠ col); [|naive_solver].
  intros ->. rewrite (lookup_col_NoDup _ _ _ Hn Hin) in Hl. done.
Qed.

Lemma encode_columns_spec skip cols : ∀ df encs,
  NoDup (names df) → NoDup cols → cols ⊆ names df →
  ∃ encs',
    encode_columns skip cols df encs
    = Ok (MkFrame (nrows df) (map (encode_one skip cols) (columns df)), encs').
Proof.
  induction cols as [|col rest IH]; intros df encs Hnd Hnc Hsub; simpl.
  { exists encs. destruct df as [n cs]. simpl. do 3 f_equal.
    rewrite <-(map_id cs) at 1. apply map_ext. intros [k c].
    unfold encode_one. cbn [fst snd]. destruct c; [|done].
    rewrite decide_False; [done|]. by intros [?%elem_of_nil _]. }
  apply NoDup_cons in Hnc as [Hcr Hnc].
  assert (col ∈ names df) as Hcol by (apply Hsub; by left).
  assert (rest ⊆ names df) as Hrest by (intros n ?; apply Hsub; by right).
  destruct (decide (col ∈ skip)) as [Hskip|Hskip].
  { destruct (IH df encs) as [encs' ->]; [done..|]. exists encs'.
    do 3 f_equal. apply map_ext. intros nc. by rewrite encode_one_skip. }
  destruct (get_col_elem_of _ _ Hcol) as [c Hc]. rewrite Hc. simpl.
  apply get_col_Ok in Hc.
  destruct c as [values|values].
  - rewrite fit_transform_codes_of. simpl.
    set (df2 := set_col col (Codes (codes_of values)) df).
    assert (names df2 = names df) as Hnames.
    { unfold names, df2. simpl. by apply names_assign_elem_of. }
    destruct (IH df2 (<[col:=PyStr.sorted_set values]> encs)) as [encs' ->];
      [by rewrite Hnames..|done|by rewrite Hnames|].
    exists encs'. do 3 f_equal. simpl. by apply map_encode_one_assign.
  - destruct (IH df encs) as [encs' ->]; [done..|]. exists encs'.
    do 3 f_equal. by eapply map_encode_one_codes.
Qed.

Lemma printed_nil w : printed w [] = w.
Proof. destruct w. unfold printed. simpl. by rewrite app_nil_r. Qed.

Lemma printed_printed w o1 o2 : printed (printed w o1) o2 = printed w (o1 ++ o2).
Proof. unfold printed. simpl. by rewrite app_assoc. Qed.

Lemma print_run o w : print o w = (Ok (), printed w [o]).
Proof. done. Qed.

Lemma load_data_run nodes edges w u s t :
  get_col "user_id" nodes = Ok u →
  get_col "source_id" edges = Ok s →
  get_col "target_id" edges = Ok t →
  let mask := valid_mask (normalize u) (normalize s) (normalize t) in
  let valid := select_rows mask (normalized_edges edges s t) in
  load_data nodes edges w
  = (Ok (set_col "user_id" (map CStr (normalize u)) nodes, valid),
     printed w ([OutUnique "user_id" (PyStr.sorted_set (normalize u));
                 OutUnique "source_id" (PyStr.sorted_set (normalize s));
                 OutUnique "target_id" (PyStr.sorted_set (normalize t))]
                ++ if decide (nrows valid ≠ nrows edges)
                   then [OutSkipping (nrows edges - nrows valid)] else [])).
Proof.
  intros Hu Hs Ht mask valid.
  assert (get_col "target_id"
            (set_col "source_id" (map CStr (normalize s)) edges) = Ok t) as Ht'.
  { apply get_col_Ok. simpl. rewrite lookup_assign_ne by done.
    by apply get_col_Ok. }
  unfold load_data, mbind, M_bind, lift. rewrite Hu, Hs.
  fold (normalize u) (normalize s). rewrite Ht'. fold (normalize t).
  rewrite !print_run.
  fold (valid_mask (normalize u) (normalize s) (normalize t)).
  fold (normalized_edges edges s t). fold mask. fold valid.
  change (nrows (normalized_edges edges s t)) with (nrows edges).
  destruct (decide (nrows valid ≠ nrows edges)).
  - rewrite print_run. unfold mret, M_ret. by rewrite !printed_printed.
  - unfold mret, M_ret. by rewrite !printed_printed.
Qed.

Lemma encode_data_run nodes edges w u s t uidx sidx tidx n' encs1 e' encs2 :
  get_col "user_id" nodes = Ok u →
  get_col "source_id" edges = Ok s →
  get_col "target_id" edges = Ok t →
  LabelEncoder.transform (LabelEncoder.fit u) u = Ok uidx →
  LabelEncoder.transform (LabelEncoder.fit u) s = Ok sidx →
  LabelEncoder.transform (LabelEncoder.fit u) t = Ok tidx →
  encode_columns ["user_id"] (names (indexed_nodes nodes uidx))
                 (indexed_nodes nodes uidx) ∅ = Ok (n', encs1) →
  encode_columns edge_skip (names (indexed_edges edges sidx tidx))
                 (indexed_edges edges sidx tidx) encs1 = Ok (e', encs2) →
  encode_data nodes edges w
  = (Ok (n', e', encs2), printed w (comparison_lines u s t)).
Proof.
  intros Hu Hs Ht Huidx Hsidx Htidx Hn He.
  unfold encode_data, mbind, M_bind, lift. rewrite !print_run, Hs, Hu.
  rewrite !print_run, Ht, !print_run, Huidx, Hsidx, Htidx.
  fold (indexed_nodes nodes uidx). fold (indexed_edges edges sidx tidx).
  rewrite Hn. fold edge_skip. rewrite He.
  unfold mret, M_ret. by rewrite !printed_printed.
Qed.

Lemma encode_data_raise nodes edges w u s t e :
  get_col "user_id" nodes = Ok u →
  get_col "source_id" edges = Ok s →
  get_col "target_id" edges = Ok t →
  (LabelEncoder.transform (LabelEncoder.fit u) s = Raise e
   ∨ (∃ sidx, LabelEncoder.transform (LabelEncoder.fit u) s = Ok sidx)
     ∧ LabelEncoder.transform (LabelEncoder.fit u) t = Raise e) →
  encode_data nodes edges w = (Raise e, printed w (comparison_lines u s t)).
Proof.
  intros Hu Hs Ht Hr. destruct (fit_indices u) as (uidx & Huidx & _).
  unfold encode_data, mbind, M_bind, lift. rewrite !print_run, Hs, Hu.
  rewrite !print_run, Ht, !print_run, Huidx.
  destruct Hr as [->|[[sidx ->] ->]]; by rewrite !printed_printed.
Qed.

Lemma encode_data_effects nodes edges w r w' :
  encode_data nodes edges w = (r, w') →
  tensors w' = tensors w ∧ optimizer_steps w' = optimizer_steps w.
Proof.
  unfold encode_data, mbind, M_bind, lift. rewrite !print_run.
  repeat (match goal with
          | |- context [match ?r with Ok _ => _ | Raise _ => _ end] =>
              destruct r
          | |- context [let '(_, _) := ?p in _] => destruct p
          end; try rewrite !print_run);
  intros [= <- <-]; done.
Qed.

Lemma mask_select_map {A B} (f : A → B) mask (l : list A) :
  mask_select mask (map f l) = map f (mask_select mask l).
Proof.
  revert l. induction mask as [|b mask IH]; intros [|a l]; simpl; try done.
  destruct b; simpl; by rewrite IH.
Qed.

Lemma valid_mask_zip u s t :
  valid_mask u s t
  = map (λ st, bool_decide (valid_edge (list_to_set u) st)) (zip s t).
Proof.
  unfold valid_mask, isin, valid_edge.
  revert t. induction s as [|a s IH]; intros [|b t]; csimpl; try done.
  rewrite IH. f_equal. symmetry. apply bool_decide_and.
Qed.

Lemma mask_select_zip {A B} mask (l : list A) (k : list B) :
  mask_select mask (zip l k) = zip (mask_select mask l) (mask_select mask k).
Proof.
  revert l k. induction mask as [|b mask IH]; intros [|a l] [|c k]; simpl;
    try done.
  - destruct b; simpl; [by destruct (mask_select mask l)|].
    by destruct (mask_select mask l).
  - destruct b; simpl; by rewrite IH.
Qed.

Lemma mask_select_decide {A} (P : A → Prop) `{∀ a, Decision (P a)} (l : list A) :
  mask_select (map (λ a, bool_decide (P a)) l) l = filter P l.
Proof.
  induction l as [|a l IH]; [done|]. cbn [map mask_select].
  rewrite filter_cons.
  destruct (decide (P a));
    [rewrite bool_decide_true by done|rewrite bool_decide_false by done];
    by rewrite IH.
Qed.

Lemma mask_count_decide {A} (P : A → Prop) `{∀ a, Decision (P a)} (l : list A) :
  length (filter (λ b, b = true) (map (λ a, bool_decide (P a)) l))
  = length (filter P l).
Proof.
  induction l as [|a l IH]; [done|]. cbn [map].
  rewrite !filter_cons.
  destruct (decide (P a)).
  - rewrite bool_decide_true, decide_True by done. simpl. by rewrite IH.
  - rewrite bool_decide_false, decide_False by done. done.
Qed.

Lemma kept_endpoints u s t :
  zip (mask_select (valid_mask u s t) s) (mask_select (valid_mask u s t) t)
  = filter (valid_edge (list_to_set u)) (zip s t).
Proof.
  rewrite <-mask_select_zip, valid_mask_zip. apply mask_select_decide.
Qed.

Lemma kept_sources_known u s t :
  mask_select (valid_mask u s t) s ⊆ u.
Proof.
  unfold valid_mask, isin.
  revert t. induction s as [|a s IH]; intros [|b t]; simpl;
    try apply list_subseteq_nil.
  destruct (bool_decide (a ∈ _)) eqn:Ha; simpl; [|by apply IH].
  destruct (bool_decide (b ∈ _)); [|by apply IH].
  apply bool_decide_eq_true_1, elem_of_list_to_set in Ha.
  intros v [->|?]%elem_of_cons; [done|]. by eapply IH.
Qed.

Lemma kept_targets_known u s t :
  mask_select (valid_mask u s t) t ⊆ u.
Proof.
  unfold valid_mask, isin.
  revert t. induction s as [|a s IH]; intros [|b t]; simpl;
    try apply list_subseteq_nil.
  destruct (bool_decide (a ∈ _)); simpl; [|by apply IH].
  destruct (bool_decide (b ∈ _)) eqn:Hb; [|by apply IH].
  apply bool_decide_eq_true_1, elem_of_list_to_set in Hb.
  intros v [->|?]%elem_of_cons; [done|]. by eapply IH.
Qed.

Lemma to_str_CStr l : map to_str (map CStr l) = l.
Proof. rewrite map_map. simpl. apply map_id. Qed.

Lemma normalized_source edges s t :
  lookup_col "source_id" (columns (normalized_edges edges s t))
  = Some (map CStr (normalize s)).
Proof.
  unfold normalized_edges. simpl. rewrite lookup_assign_ne by done.
  apply lookup_assign_eq.
Qed.

Lemma normalized_target edges s t :
  lookup_col "target_id" (columns (normalized_edges edges s t))
  = Some (map CStr (normalize t)).
Proof. unfold normalized_edges. simpl. apply lookup_assign_eq. Qed.

Lemma get_col_select_rows {A} n mask (df : Frame (list A)) c :
  lookup_col n (columns df) = Some c →
  get_col n (select_rows mask df) = Ok (mask_select mask c).
Proof.
  intros Hc. apply get_col_Ok. simpl. by rewrite lookup_map_cols, Hc.
Qed.

Lemma get_col_astype_str n (df : Frame (list Cell)) c :
  get_col n df = Ok c → get_col n (astype_str df) = Ok (map to_str c).
Proof.
  intros Hc%get_col_Ok. apply get_col_Ok. simpl.
  by rewrite lookup_map_cols, Hc.
Qed.

(** C1. With the three identifier columns present, [load_data] returns, and
    the edge table it returns holds exactly the edges whose two normalised
    endpoints are in [node_ids]: the endpoint pairs are the valid pairs, in
    order, every column is cut by the same mask, the row count is the number
    of valid edges, and the count printed, when edges were dropped, is
    [len(edges) - len(valid_edges)]. *)
Theorem C1_load_data_keeps_exactly_the_valid_edges
    (nodes edges : Frame (list Cell)) (w : World) (u s t : list Cell) :
  get_col "user_id" nodes = Ok u →
  get_col "source_id" edges = Ok s →
  get_col "target_id" edges = Ok t →
  let node_ids := node_id_set u in
  let endpoints := zip (normalize s) (normalize t) in
  ∃ nodes' valid_edges w' source_id target_id,
    load_data nodes edges w = (Ok (nodes', valid_edges), w')
    ∧ get_col "source_id" valid_edges = Ok (map CStr source_id)
    ∧ get_col "target_id" valid_edges = Ok (map CStr target_id)
    ∧ zip source_id target_id = filter (valid_edge node_ids) endpoints
    ∧ columns valid_edges
      = map_cols
          (mask_select (map (λ st, bool_decide (valid_edge node_ids st)) endpoints))
          (columns (normalized_edges edges s t))
    ∧ nrows valid_edges = length (filter (valid_edge node_ids) endpoints)
    ∧ stdout w'
      = stdout w
        ++ [OutUnique "user_id" (PyStr.sorted_set (normalize u));
            OutUnique "source_id" (PyStr.sorted_set (normalize s));
            OutUnique "target_id" (PyStr.sorted_set (normalize t))]
        ++ if decide (nrows valid_edges ≠ nrows edges)
           then [OutSkipping (nrows edges - nrows valid_edges)] else [].
Proof.
  intros Hu Hs Ht node_ids endpoints.
  set (mask := valid_mask (normalize u) (normalize s) (normalize t)).
  eexists _, _, _, (mask_select mask (normalize s)),
    (mask_select mask (normalize t)).
  split; [by apply load_data_run|]. fold mask.
  split_and!.
  - rewrite <-mask_select_map. apply get_col_select_rows, normalized_source.
  - rewrite <-mask_select_map. apply get_col_select_rows, normalized_target.
  - apply kept_endpoints.
  - simpl. unfold mask. by rewrite valid_mask_zip.
  - simpl. unfold mask. rewrite valid_mask_zip. apply mask_count_decide.
  - done.
Qed.

Lemma C1_witness :
  ∃ nodes' valid_edges w',
    load_data C1_nodes C1_edges initial_world = (Ok (nodes', valid_edges), w')
    ∧ columns valid_edges
      = [("source_id", [CStr "A"]); ("target_id", [CStr "B"])]
    ∧ nrows valid_edges = 1
    ∧ last (stdout w') = Some (OutSkipping 1).
Proof.
  destruct (C1_load_data_keeps_exactly_the_valid_edges C1_nodes C1_edges
              initial_world [CStr "A"; CStr "B"] [CStr "A"; CStr "A"]
              [CStr "B"; CStr "C"] eq_refl eq_refl eq_refl)
    as (nodes' & valid & w' & ks & kt & Hrun & _ & _ & _ & Hcols & Hrows & Hout).
  exists nodes', valid, w'. split; [exact Hrun|].
  split; [rewrite Hcols; vm_compute; reflexivity|].
  split; [rewrite Hrows; vm_compute; reflexivity|].
  rewrite Hout, Hrows. vm_compute. reflexivity.
Defined.

Lemma length_normalize raw : length (normalize raw) = length raw.
Proof. unfold normalize, str_strip. by rewrite !length_map. Qed.

(** C9. With the three identifier columns present, [load_data] returns,
    and the node table it returns has the row count and the column names of
    the table that was loaded whatever the edges are: the [user_id] column
    is replaced by its normalised values, one per row, and every other
    column is the loaded one. *)
Theorem C9_load_data_keeps_every_node_row
    (nodes edges : Frame (list Cell)) (w : World) (u s t : list Cell) :
  get_col "user_id" nodes = Ok u →
  get_col "source_id" edges = Ok s →
  get_col "target_id" edges = Ok t →
  ∃ nodes' valid_edges w' user_id,
    load_data nodes edges w = (Ok (nodes', valid_edges), w')
    ∧ nrows nodes' = nrows nodes
    ∧ names nodes' = names nodes
    ∧ get_col "user_id" nodes' = Ok user_id
    ∧ length user_id = length u
    ∧ ∀ col, col ≠ "user_id" →
        lookup_col col (columns nodes') = lookup_col col (columns nodes).
Proof.
  intros Hu Hs Ht. eexists _, _, _, _.
  split; [by apply load_data_run|]. split_and!.
  - done.
  - unfold names. simpl. apply names_assign_elem_of.
    apply lookup_col_is_Some. apply get_col_Ok in Hu. by rewrite Hu.
  - apply get_col_Ok. simpl. apply lookup_assign_eq.
  - by rewrite length_map, length_normalize.
  - intros col Hcol. simpl. by apply lookup_assign_ne.
Qed.

Lemma C9_witness :
  ∃ nodes' valid_edges w',
    load_data C9_nodes C9_edges initial_world = (Ok (nodes', valid_edges), w')
    ∧ nrows nodes' = 3 ∧ nrows valid_edges = 0.
Proof.
  destruct (C9_load_data_keeps_every_node_row C9_nodes C9_edges initial_world
              [CStr " A"; CStr "B "; CInt 7] [CStr "A"; CStr "X"]
              [CStr "Y"; CStr "Z"] eq_refl eq_refl eq_refl)
    as (nodes' & valid & w' & ids & Hrun & Hrows & _).
  exists nodes', valid, w'. split; [exact Hrun|]. split; [exact Hrows|].
  vm_compute in Hrun. injection Hrun as _ <- _. reflexivity.
Defined.

Lemma encode_data_total nodes edges w u s t :
  get_col "user_id" nodes = Ok u →
  get_col "source_id" edges = Ok s →
  get_col "target_id" edges = Ok t →
  s ⊆ u → t ⊆ u →
  ∃ uidx sidx tidx n' e' encs1 encs2,
    LabelEncoder.transform (LabelEncoder.fit u) u = Ok uidx
    ∧ LabelEncoder.transform (LabelEncoder.fit u) s = Ok sidx
    ∧ LabelEncoder.transform (LabelEncoder.fit u) t = Ok tidx
    ∧ encode_columns ["user_id"] (names (indexed_nodes nodes uidx))
        (indexed_nodes nodes uidx) ∅ = Ok (n', encs1)
    ∧ encode_columns edge_skip (names (indexed_edges edges sidx tidx))
        (indexed_edges edges sidx tidx) encs1 = Ok (e', encs2)
    ∧ encode_data nodes edges w
      = (Ok (n', e', encs2), printed w (comparison_lines u s t)).
Proof.
  intros Hu Hs Ht Hsu Htu.
  destruct (fit_indices u) as (uidx & Huidx & _).
  destruct (transform_ok (LabelEncoder.fit u) s) as (sidx & Hsidx & _).
  { intros v ?. apply elem_of_sorted_set. by apply Hsu. }
  destruct (transform_ok (LabelEncoder.fit u) t) as (tidx & Htidx & _).
  { intros v ?. apply elem_of_sorted_set. by apply Htu. }
  destruct (encode_columns_total ["user_id"] (names (indexed_nodes nodes uidx))
              (indexed_nodes nodes uidx) ∅) as (n' & encs1 & Hn & _); [done|].
  destruct (encode_columns_total edge_skip
              (names (indexed_edges edges sidx tidx))
              (indexed_edges edges sidx tidx) encs1) as (e' & encs2 & He & _);
    [done|].
  exists uidx, sidx, tidx, n', e', encs1, encs2. split_and!; try done.
  by eapply encode_data_run.
Qed.

Lemma loaded_user_id nodes u :
  get_col "user_id"
    (astype_str (set_col "user_id" (map CStr (normalize u)) nodes))
  = Ok (normalize u).
Proof.
  rewrite <-(to_str_CStr (normalize u)) at 2. apply get_col_astype_str.
  apply get_col_Ok. simpl. apply lookup_assign_eq.
Qed.

Lemma loaded_source_id edges mask s t :
  get_col "source_id" (astype_str (select_rows mask (normalized_edges edges s t)))
  = Ok (mask_select mask (normalize s)).
Proof.
  rewrite <-(to_str_CStr (mask_select mask (normalize s))).
  apply get_col_astype_str. rewrite <-mask_select_map.
  apply get_col_select_rows, normalized_source.
Qed.

Lemma loaded_target_id edges mask s t :
  get_col "target_id" (astype_str (select_rows mask (normalized_edges edges s t)))
  = Ok (mask_select mask (normalize t)).
Proof.
  rewrite <-(to_str_CStr (mask_select mask (normalize t))).
  apply get_col_astype_str. rewrite <-mask_select_map.
  apply get_col_select_rows, normalized_target.
Qed.

(** C4. First part: on tables that hold the three identifier columns,
    [encode_data] raises a [ValueError] as soon as an edge endpoint is no
    node identifier; by then it has printed its three comparison lines and
    nothing else. Second part: on the tables [load_data] and [preprocess]
    return, [encode_data] returns: the failure cannot occur. *)
Theorem C4_unseen_endpoint_fails_and_pipeline_never_does :
  (∀ (nodes edges : Frame (list string)) (w : World) (u s t : list string),
     get_col "user_id" nodes = Ok u →
     get_col "source_id" edges = Ok s →
     get_col "target_id" edges = Ok t →
     Exists (λ v, v ∉ u) (s ++ t) →
     ∃ msg,
       encode_data nodes edges w
       = (Raise (ValueError msg), printed w (comparison_lines u s t)))
  ∧ (∀ (nodes edges : Frame (list Cell)) (w : World) (u s t : list Cell),
       get_col "user_id" nodes = Ok u →
       get_col "source_id" edges = Ok s →
       get_col "target_id" edges = Ok t →
       ∃ nodes' valid_edges w' encoded w'',
         load_data nodes edges w = (Ok (nodes', valid_edges), w')
         ∧ encode_data (preprocess nodes' valid_edges).1
                       (preprocess nodes' valid_edges).2 w'
           = (Ok encoded, w'')).
Proof.
  split.
  - intros nodes edges w u s t Hu Hs Ht Hex.
    assert (∀ v, v ∉ LabelEncoder.fit u ↔ v ∉ u) as Hfit.
    { intros v. unfold LabelEncoder.fit. by rewrite elem_of_sorted_set. }
    destruct (decide (Exists (λ v, v ∉ u) s)) as [Hes|Hes].
    + destruct (transform_unseen (LabelEncoder.fit u) s) as (v & Hv & Hn & Hr).
      { eapply Exists_impl; [done|]. intros v. by rewrite Hfit. }
      exists (LabelEncoder.unseen v).
      eapply encode_data_raise; eauto.
    + apply Exists_app in Hex as [?|Het]; [done|].
      destruct (transform_unseen (LabelEncoder.fit u) t) as (v & Hv & Hn & Hr).
      { eapply Exists_impl; [done|]. intros v. by rewrite Hfit. }
      exists (LabelEncoder.unseen v).
      eapply encode_data_raise; eauto. right. split; [|done].
      destruct (transform_ok (LabelEncoder.fit u) s) as (sidx & ? & _); [|eauto].
      intros v' Hv'. apply elem_of_sorted_set.
      apply not_Exists_Forall in Hes; [|apply _].
      rewrite Forall_forall in Hes. specialize (Hes v' Hv'). simpl in Hes.
      by destruct (decide (v' ∈ u)).
  - intros nodes edges w u s t Hu Hs Ht.
    set (mask := valid_mask (normalize u) (normalize s) (normalize t)).
    destruct (encode_data_total
                (astype_str (set_col "user_id" (map CStr (normalize u)) nodes))
                (astype_str (select_rows mask (normalized_edges edges s t)))
                (printed w ([OutUnique "user_id" (PyStr.sorted_set (normalize u));
                  OutUnique "source_id" (PyStr.sorted_set (normalize s));
                  OutUnique "target_id" (PyStr.sorted_set (normalize t))]
                 ++ if decide (nrows (select_rows mask (normalized_edges edges s t))
                               ≠ nrows edges)
                    then [OutSkipping (nrows edges
                            - nrows (select_rows mask (normalized_edges edges s t)))]
                    else []))
                (normalize u) (mask_select mask (normalize s))
                (mask_select mask (normalize t)))
      as (uidx & sidx & tidx & n' & e' & encs1 & encs2 & _ & _ & _ & _ & _ & Hrun).
    { apply loaded_user_id. }
    { apply loaded_source_id. }
    { apply loaded_target_id. }
    { apply kept_sources_known. }
    { apply kept_targets_known. }
    eexists _, _, _, _, _. split; [by apply load_data_run|].
    simpl. exact Hrun.
Qed.

Lemma C4_witness :
  (∃ msg w',
     encode_data (astype_str C4_nodes) (astype_str C4_edges) initial_world
     = (Raise (ValueError msg), w'))
  ∧ (∃ nodes' valid_edges w' encoded w'',
       load_data C4_nodes C4_edges initial_world = (Ok (nodes', valid_edges), w')
       ∧ encode_data (preprocess nodes' valid_edges).1
                     (preprocess nodes' valid_edges).2 w'
         = (Ok encoded, w'')).
Proof.
  split.
  - destruct (proj1 C4_unseen_endpoint_fails_and_pipeline_never_does
                (astype_str C4_nodes) (astype_str C4_edges) initial_world
                ["A"; "B"] ["A"; "A"] ["B"; "C"] eq_refl eq_refl eq_refl)
      as (msg & Hrun).
    + do 3 apply Exists_cons_tl. apply Exists_cons_hd. vm_compute.
      intros H. repeat (inversion H as [|? ? ? H']; clear H; rename H' into H).
    + exists msg. eexists. exact Hrun.
  - exact (proj2 C4_unseen_endpoint_fails_and_pipeline_never_does
             C4_nodes C4_edges initial_world
             [CStr "A"; CStr "B"] [CStr "A"; CStr "A"] [CStr "B"; CStr "C"]
             eq_refl eq_refl eq_refl).
Defined.

Lemma sorted_codes_bijective values codes :
  Forall2 (λ v i, PyStr.sorted_set values !! i = Some v) values codes →
  bijective_codes values codes.
Proof.
  intros Hf. split_and!.
  - symmetry. by eapply Forall2_length.
  - intros p q a b i j Hp Hq Hi Hj.
    destruct (Forall2_lookup_l _ _ _ _ _ Hf Hp) as (i' & Hi' & Ha).
    destruct (Forall2_lookup_l _ _ _ _ _ Hf Hq) as (j' & Hj' & Hb).
    simplify_eq. split.
    + intros <-. eapply NoDup_lookup; eauto using NoDup_sorted_set.
    + intros <-. congruence.
  - intros k. unfold LabelEncoder.fit. split.
    + intros (p & Hp)%list_elem_of_lookup.
      destruct (Forall2_lookup_r _ _ _ _ _ Hf Hp) as (a & Ha & Hka).
      by eapply lookup_lt_Some.
    + intros (v & Hv)%lookup_lt_is_Some.
      assert (v ∈ values) as (p & Hp)%list_elem_of_lookup.
      { apply elem_of_sorted_set. by eapply list_elem_of_lookup_2. }
      destruct (Forall2_lookup_l _ _ _ _ _ Hf Hp) as (i & Hi & Hvi).
      assert (i = k) as ->.
      { eapply (NoDup_lookup (PyStr.sorted_set values));
          eauto using NoDup_sorted_set. }
      by eapply list_elem_of_lookup_2.
Qed.

Lemma NoDup_names_assign {C} n (c : C) cols :
  NoDup cols.*1 → NoDup (assign_col n c cols).*1.
Proof.
  intros Hn. destruct (decide (n ∈ cols.*1)).
  - by rewrite names_assign_elem_of.
  - rewrite names_assign_fresh by done. apply NoDup_app. split_and!; [done| |].
    + intros x Hx [->|[]%elem_of_nil]%elem_of_cons. done.
    + apply NoDup_singleton.
Qed.

Lemma lookup_encode_one skip cols n (l : list (string * EncCol)) :
  lookup_col n (map (encode_one skip cols) l)
  = (λ c, (encode_one skip cols (n, c)).2) <$> lookup_col n l.
Proof.
  induction l as [|[k c] l IH]; simpl; [done|].
  assert ((encode_one skip cols (k, c)).1 = k) as Hk.
  { unfold encode_one. simpl. destruct c; [|done]. by case_decide. }
  destruct (encode_one skip cols (k, c)) as [k' c'] eqn:He. simpl in Hk. subst k'.
  destruct (decide (k = n)) as [->|]; [|done].
  simpl. by rewrite He.
Qed.

Lemma encoded_text_column skip cols df encs n' encs' col values :
  NoDup (names df) → cols = names df →
  encode_columns skip cols df encs = Ok (n', encs') →
  col ∉ skip →
  lookup_col col (columns df) = Some (Text values) →
  get_col col n' = Ok (Codes (codes_of values)).
Proof.
  intros Hnd -> Hrun Hskip Hcol.
  destruct (encode_columns_spec skip (names df) df encs) as [encs'' Hspec];
    [done..|].
  rewrite Hspec in Hrun. simplify_eq. apply get_col_Ok. simpl.
  rewrite lookup_encode_one, Hcol. simpl. unfold encode_one. simpl.
  rewrite decide_True; [done|]. split; [|done].
  apply lookup_col_is_Some. by rewrite Hcol.
Qed.

Lemma encoded_codes_column skip cols df encs n' encs' col codes :
  cols ⊆ names df →
  encode_columns skip cols df encs = Ok (n', encs') →
  lookup_col col (columns df) = Some (Codes codes) →
  get_col col n' = Ok (Codes codes).
Proof.
  intros Hsub Hrun Hcol.
  destruct (encode_columns_total skip cols df encs Hsub)
    as (df' & encs'' & Hrun' & _ & _ & Hcodes & _).
  rewrite Hrun' in Hrun. simplify_eq. apply get_col_Ok. by apply Hcodes.
Qed.

(** C2. For tables of strings with the three identifier columns, pairwise
    distinct node identifiers and edge endpoints among them, [encode_data]
    returns, and the [user_idx] column it fits on [nodes['user_id']] is a
    bijection onto [0 .. num_nodes-1]: no two identifiers share an integer
    and every integer below the number of identifiers is used. *)
Theorem C2_identifier_index_is_a_bijection
    (nodes edges : Frame (list string)) (w : World) (u s t : list string) :
  get_col "user_id" nodes = Ok u →
  get_col "source_id" edges = Ok s →
  get_col "target_id" edges = Ok t →
  s ⊆ u → t ⊆ u →
  NoDup u →
  ∃ nodes' edges' encoders w' user_idx,
    encode_data nodes edges w = (Ok (nodes', edges', encoders), w')
    ∧ LabelEncoder.transform (LabelEncoder.fit u) u = Ok user_idx
    ∧ get_col "user_idx" nodes' = Ok (Codes user_idx)
    ∧ length user_idx = length u
    ∧ NoDup user_idx
    ∧ ∀ k, k ∈ user_idx ↔ k < length u.
Proof.
  intros Hu Hs Ht Hsu Htu Hnd.
  destruct (encode_data_total nodes edges w u s t Hu Hs Ht Hsu Htu)
    as (uidx & sidx & tidx & n' & e' & encs1 & encs2
        & Huidx & _ & _ & Hn & _ & Hrun).
  destruct (fit_indices u) as (codes & Hc & Hf).
  rewrite Hc in Huidx. simplify_eq.
  destruct (distinct_codes_bijective u uidx Hnd Hf) as [Hnc Hrange].
  exists n', e', encs2, (printed w (comparison_lines u s t)), uidx.
  split_and!; try done.
  - eapply encoded_codes_column; [|done|]; [done|].
    unfold indexed_nodes. simpl. apply lookup_assign_eq.
  - symmetry. by eapply Forall2_length.
Qed.

Lemma C2_witness :
  ∃ nodes' edges' encoders w',
    encode_data C2_nodes C2_edges initial_world
    = (Ok (nodes', edges', encoders), w')
    ∧ get_col "user_idx" nodes' = Ok (Codes [2; 0; 1]).
Proof.
  destruct (C2_identifier_index_is_a_bijection C2_nodes C2_edges initial_world
              ["carol"; "alice"; "bob"] ["bob"] ["carol"]
              eq_refl eq_refl eq_refl)
    as (n' & e' & encs & w' & uidx & Hrun & Hfit & Hcol & _).
  - set_solver.
  - set_solver.
  - apply (bool_decide_unpack (NoDup ["carol"; "alice"; "bob"])).
    vm_compute. exact I.
  - exists n', e', encs, w'. split; [exact Hrun|].
    vm_compute in Hfit. injection Hfit as <-. exact Hcol.
Defined.



Ltac by_compute := apply (bool_decide_unpack _); vm_compute; exact I.

Lemma NoDup_names_indexed_nodes nodes uidx :
  NoDup (names nodes) → NoDup (names (indexed_nodes nodes uidx)).
Proof.
  intros Hn. unfold names, indexed_nodes. simpl.
  apply NoDup_names_assign. by rewrite names_map_cols.
Qed.

Lemma NoDup_names_indexed_edges edges sidx tidx :
  NoDup (names edges) → NoDup (names (indexed_edges edges sidx tidx)).
Proof.
  intros Hn. unfold names, indexed_edges. simpl.
  do 2 apply NoDup_names_assign. by rewrite names_map_cols.
Qed.

Lemma codes_of_bijective values : bijective_codes values (codes_of values).
Proof. apply sorted_codes_bijective, codes_of_lookup. Qed.

(** C7. First part: for tables of strings with pairwise distinct column
    names, every column of the nodes other than [user_id] and [user_idx],
    and every column of the edges other than the four identifier columns, is
    replaced by the codes of an encoder fitted on that column alone, and
    these codes are a bijection: equal strings of the column share a code,
    distinct strings have distinct codes, and the codes are [0 .. k-1].
    Second part: [region = ["east"; "west"; "east"]] is encoded as two
    distinct integers, the repeated value with the same one. Third part: the
    same string can have different codes in two columns: "west" is 1 in
    [region] and 0 in [home]. *)
Theorem C7_category_encoders_are_column_local :
  (∀ (nodes edges : Frame (list string)) (w : World) (u s t : list string),
     get_col "user_id" nodes = Ok u →
     get_col "source_id" edges = Ok s →
     get_col "target_id" edges = Ok t →
     s ⊆ u → t ⊆ u →
     NoDup (names nodes) → NoDup (names edges) →
     ∃ nodes' edges' encoders w',
       encode_data nodes edges w = (Ok (nodes', edges', encoders), w')
       ∧ (∀ col values,
            col ∉ ["user_id"; "user_idx"] →
            lookup_col col (columns nodes) = Some values →
            ∃ codes,
              get_col col nodes' = Ok (Codes codes)
              ∧ LabelEncoder.fit_transform values
                = Ok (LabelEncoder.fit values, codes)
              ∧ bijective_codes values codes)
       ∧ (∀ col values,
            col ∉ edge_skip →
            lookup_col col (columns edges) = Some values →
            ∃ codes,
              get_col col edges' = Ok (Codes codes)
              ∧ LabelEncoder.fit_transform values
                = Ok (LabelEncoder.fit values, codes)
              ∧ bijective_codes values codes))
  ∧ LabelEncoder.fit_transform ["east"; "west"; "east"]
    = Ok (["east"; "west"], [0; 1; 0])
  ∧ ∃ nodes' edges' encoders w',
      encode_data C7_nodes C7_edges initial_world
      = (Ok (nodes', edges', encoders), w')
      ∧ get_col "region" nodes' = Ok (Codes [0; 1; 0])
      ∧ get_col "home" nodes' = Ok (Codes [0; 1; 0])
      ∧ get_col "channel" edges' = Ok (Codes [1; 0]).
Proof.
  split_and!.
  - intros nodes edges w u s t Hu Hs Ht Hsu Htu Hnn Hne.
    destruct (encode_data_total nodes edges w u s t Hu Hs Ht Hsu Htu)
      as (uidx & sidx & tidx & n' & e' & encs1 & encs2
          & _ & _ & _ & Hn & He & Hrun).
    exists n', e', encs2, (printed w (comparison_lines u s t)).
    split; [done|]. split.
    + intros col values Hcol Hl. exists (codes_of values).
      split_and!; [|apply fit_transform_codes_of|apply codes_of_bijective].
      eapply encoded_text_column; [|done|done|set_solver|].
      * by apply NoDup_names_indexed_nodes.
      * unfold indexed_nodes. simpl. rewrite lookup_assign_ne by set_solver.
        by rewrite lookup_map_cols, Hl.
    + intros col values Hcol Hl. exists (codes_of values).
      split_and!; [|apply fit_transform_codes_of|apply codes_of_bijective].
      eapply encoded_text_column; [|done|done|done|].
      * by apply NoDup_names_indexed_edges.
      * unfold indexed_edges, edge_skip in *. simpl.
        rewrite !lookup_assign_ne by set_solver.
        by rewrite lookup_map_cols, Hl.
  - vm_compute. reflexivity.
  - eexists _, _, _, _. split; [vm_compute; reflexivity|].
    split_and!; vm_compute; reflexivity.
Qed.

Lemma C7_witness :
  ∃ nodes' codes,
    get_col "region" nodes' = Ok (Codes codes)
    ∧ LabelEncoder.fit_transform ["east"; "west"; "east"]
      = Ok (LabelEncoder.fit ["east"; "west"; "east"], codes)
    ∧ bijective_codes ["east"; "west"; "east"] codes.
Proof.
  destruct (proj1 C7_category_encoders_are_column_local C7_nodes C7_edges
              initial_world ["A"; "B"; "C"] ["A"; "B"] ["B"; "C"]
              eq_refl eq_refl eq_refl)
    as (n' & e' & encs & w' & Hrun & Hnodes & _).
  - by_compute.
  - by_compute.
  - by_compute.
  - by_compute.
  - destruct (Hnodes "region" ["east"; "west"; "east"]) as (codes & H1 & H2 & H3).
    + by_compute.
    + reflexivity.
    + exists n', codes. split; [exact H1|]. split; [exact H2|exact H3].
Defined.

(** C6. When [encode_data] raises a [ValueError], [main] catches it at its
    [try] statement, prints the message and returns normally: nothing else
    is printed, no tensor is built and no optimizer step is made. *)
Theorem C6_encoding_failure_is_reported_and_main_returns
    (nodes edges : Frame (list string)) (w w' : World) (msg : string) :
  encode_data nodes edges w = (Raise (ValueError msg), w') →
  ∃ w'',
    encode_and_train nodes edges w = (Ok (), w'')
    ∧ stdout w'' = stdout w' ++ [OutEncodingError msg]
    ∧ tensors w'' = tensors w
    ∧ optimizer_steps w'' = optimizer_steps w.
Proof.
  intros Hrun. destruct (encode_data_effects _ _ _ _ _ Hrun) as [Ht Ho].
  exists (printed w' [OutEncodingError msg]).
  unfold encode_and_train, try, mbind, M_bind. rewrite Hrun.
  by rewrite print_run.
Qed.

Lemma C6_witness :
  ∃ w'',
    encode_and_train C6_nodes C6_edges initial_world = (Ok (), w'')
    ∧ last (stdout w'')
      = Some (OutEncodingError "y contains previously unseen labels: 'C'")
    ∧ tensors w'' = 0
    ∧ optimizer_steps w'' = 0.
Proof.
  destruct (C6_encoding_failure_is_reported_and_main_returns C6_nodes C6_edges
              initial_world (encode_data C6_nodes C6_edges initial_world).2
              "y contains previously unseen labels: 'C'")
    as (w'' & Hrun & Hout & Ht & Ho).
  - vm_compute. reflexivity.
  - exists w''. split; [exact Hrun|]. split; [|split; [exact Ht|exact Ho]].
    rewrite Hout. apply last_snoc.
Defined.

Lemma append_nil_l x : "" +:+ x = x.
Proof. reflexivity. Qed.

Lemma append_cons c l x : String c l +:+ x = String c (l +:+ x).
Proof. reflexivity. Qed.

Lemma rstrip_all_space r : PyStr.all_space r = true → PyStr.rstrip r = "".
Proof.
  induction r as [|c r IH]; simpl; [done|].
  intros [Hc Hr]%andb_true_iff. by rewrite IH, Hc.
Qed.

Lemma rstrip_app_space x r :
  PyStr.all_space r = true → PyStr.rstrip (x +:+ r) = PyStr.rstrip x.
Proof.
  intros Hr. induction x as [|c x IH].
  - rewrite append_nil_l. by apply rstrip_all_space.
  - rewrite append_cons. simpl. by rewrite IH.
Qed.

Lemma lstrip_app_space l x :
  PyStr.all_space l = true → PyStr.lstrip (l +:+ x) = PyStr.lstrip x.
Proof.
  induction l as [|c l IH]; [done|]. rewrite append_cons. simpl.
  intros [-> Hl]%andb_true_iff. auto.
Qed.

Lemma rstrip_space_app l x :
  PyStr.all_space l = true →
  PyStr.rstrip (l +:+ x)
  = if PyStr.is_empty (PyStr.rstrip x) then "" else l +:+ PyStr.rstrip x.
Proof.
  induction l as [|c l IH].
  - intros _. rewrite !append_nil_l. by destruct (PyStr.rstrip x).
  - rewrite !append_cons. simpl.
    intros [-> Hl]%andb_true_iff. rewrite IH by done. simpl.
    destruct (PyStr.is_empty (PyStr.rstrip x)) eqn:He; simpl; [done|].
    destruct l as [|d l].
    + rewrite append_nil_l. by rewrite He.
    + by rewrite append_cons.
Qed.

Lemma strip_padding l core r :
  PyStr.all_space l = true → PyStr.all_space r = true →
  PyStr.strip (l +:+ core +:+ r) = PyStr.strip core.
Proof.
  intros Hl Hr. unfold PyStr.strip.
  rewrite rstrip_space_app, rstrip_app_space by done.
  destruct (PyStr.is_empty (PyStr.rstrip core)) eqn:He.
  - by destruct (PyStr.rstrip core).
  - by apply lstrip_app_space.
Qed.

Lemma strip_equiv a b : differ_by_outer_whitespace a b → PyStr.strip a = PyStr.strip b.
Proof.
  intros (l & r & l' & r' & core & Hl & Hr & Hl' & Hr' & -> & ->).
  by rewrite !strip_padding.
Qed.

Lemma normalize_CStr l : normalize (map CStr l) = map PyStr.strip l.
Proof. unfold normalize, str_strip. by rewrite to_str_CStr. Qed.

Lemma map_strip_equiv l l' :
  Forall2 differ_by_outer_whitespace l l' → map PyStr.strip l = map PyStr.strip l'.
Proof.
  induction 1 as [|a b l l' Hab _ IH]; simpl; [done|].
  by rewrite IH, (strip_equiv a b).
Qed.

Lemma isspace_spec c :
  PyStr.isspace c = bool_decide (c ∈ python_whitespace).
Proof. destruct c as [[] [] [] [] [] [] [] []]; vm_compute; reflexivity. Qed.

Lemma append_assoc (a b c : string) : (a +:+ b) +:+ c = a +:+ b +:+ c.
Proof.
  induction a as [|x a IH]; [done|]. rewrite !append_cons. by rewrite IH.
Qed.

Lemma last_char_None s : last_char s = None → s = "".
Proof. destruct s as [|c s]; [done|]. simpl. by destruct (last_char s). Qed.

Lemma last_char_app l z :
  last_char (l +:+ z)
  = match last_char z with Some d => Some d | None => last_char l end.
Proof.
  induction l as [|c l IH].
  - rewrite append_nil_l. by destruct (last_char z).
  - rewrite append_cons. simpl. rewrite IH. by destruct (last_char z).
Qed.

Lemma lstrip_fixed s :
  (∀ c, first_char s = Some c → PyStr.isspace c = false) → PyStr.lstrip s = s.
Proof.
  destruct s as [|c s]; [done|]. simpl. intros H. by rewrite (H c).
Qed.

Lemma rstrip_fixed s :
  (∀ d, last_char s = Some d → PyStr.isspace d = false) → PyStr.rstrip s = s.
Proof.
  induction s as [|c s IH]; [done|]. simpl. intros H.
  destruct (last_char s) as [d|] eqn:Hd.
  - rewrite IH by done. destruct s; [done|]. simpl. by rewrite andb_false_r.
  - apply last_char_None in Hd as ->. simpl. by rewrite (H c).
Qed.

Lemma no_outer_space_spec s :
  no_outer_space s = true →
  (∀ c, first_char s = Some c → PyStr.isspace c = false)
  ∧ (∀ d, last_char s = Some d → PyStr.isspace d = false).
Proof.
  unfold no_outer_space. destruct (first_char s) as [a|] eqn:Ha.
  - destruct (last_char s) as [b|] eqn:Hb.
    + intros [?%negb_true_iff ?%negb_true_iff]%andb_true_iff.
      split; by intros ? [= <-].
    + apply last_char_None in Hb as ->. done.
  - destruct s; done.
Qed.

Lemma strip_clean s : no_outer_space s = true → PyStr.strip s = s.
Proof.
  intros [Hf Hl]%no_outer_space_spec. unfold PyStr.strip.
  rewrite (rstrip_fixed s Hl). by apply lstrip_fixed.
Qed.

Lemma strip_core l core r :
  PyStr.all_space l = true → PyStr.all_space r = true →
  no_outer_space core = true →
  PyStr.strip (l +:+ core +:+ r) = core.
Proof. intros Hl Hr Hc. rewrite strip_padding by done. by apply strip_clean. Qed.

Lemma rstrip_split s :
  ∃ r, PyStr.all_space r = true ∧ s = PyStr.rstrip s +:+ r
       ∧ ∀ d, last_char (PyStr.rstrip s) = Some d → PyStr.isspace d = false.
Proof.
  induction s as [|c s (r & Hr & Hs & Hlast)].
  - by exists "".
  - simpl.
    destruct (PyStr.isspace c && PyStr.is_empty (PyStr.rstrip s)) eqn:Hc.
    + apply andb_true_iff in Hc as [Hc He].
      destruct (PyStr.rstrip s) eqn:Hrs; [|done]. rewrite append_nil_l in Hs.
      exists (String c r). simpl. rewrite Hc, Hr, append_nil_l.
      split_and!; [done|by rewrite <-Hs|done].
    + exists r. rewrite append_cons, <-Hs. split_and!; [done|done|].
      simpl. intros d. destruct (last_char (PyStr.rstrip s)) as [d'|] eqn:Hd.
      * intros [= <-]. by apply Hlast.
      * intros [= <-]. apply last_char_None in Hd. rewrite Hd in Hc.
        simpl in Hc. by rewrite andb_true_r in Hc.
Qed.

Lemma lstrip_split s :
  ∃ l, PyStr.all_space l = true ∧ s = l +:+ PyStr.lstrip s
       ∧ ∀ c, first_char (PyStr.lstrip s) = Some c → PyStr.isspace c = false.
Proof.
  induction s as [|c s (l & Hl & Hs & Hfirst)].
  - by exists "".
  - simpl. destruct (PyStr.isspace c) eqn:Hc.
    + exists (String c l). simpl. rewrite Hc, Hl, append_cons, <-Hs. done.
    + exists "". split_and!; [done|done|]. simpl. by intros ? [= <-].
Qed.

Lemma strip_split s :
  ∃ l r, PyStr.all_space l = true ∧ PyStr.all_space r = true
         ∧ no_outer_space (PyStr.strip s) = true
         ∧ s = l +:+ PyStr.strip s +:+ r.
Proof.
  destruct (rstrip_split s) as (r & Hr & Hs & Hlast).
  destruct (lstrip_split (PyStr.rstrip s)) as (l & Hl & Hrs & Hfirst).
  exists l, r. fold (PyStr.strip s) in Hrs, Hfirst. split_and!; [done|done| |].
  - unfold no_outer_space.
    destruct (first_char (PyStr.strip s)) as [a|] eqn:Ha; [|done].
    destruct (last_char (PyStr.strip s)) as [b|] eqn:Hb; [|done].
    rewrite (Hfirst a eq_refl). rewrite (Hlast b); [done|].
    rewrite Hrs, last_char_app. by rewrite Hb.
  - rewrite <-append_assoc, <-Hrs. exact Hs.
Qed.

Lemma normalize_same_identifier u u' :
  Forall2 same_identifier u u' → normalize u = normalize u'.
Proof.
  unfold normalize, str_strip.
  induction 1 as [|x y u u' Hxy _ IH]; simpl; [done|].
  by rewrite IH, (strip_equiv (to_str x) (to_str y)).
Qed.

Lemma load_data_on_identifiers nodes edges w (u s t : list Cell) :
  load_data (set_col "user_id" u nodes)
    (set_col "target_id" t (set_col "source_id" s edges)) w
  = (let mask := valid_mask (normalize u) (normalize s) (normalize t) in
     let valid :=
       select_rows mask
         (set_col "target_id" (map CStr (normalize t))
            (set_col "source_id" (map CStr (normalize s)) edges)) in
     (Ok (set_col "user_id" (map CStr (normalize u)) nodes, valid),
      printed w ([OutUnique "user_id" (PyStr.sorted_set (normalize u));
                  OutUnique "source_id" (PyStr.sorted_set (normalize s));
                  OutUnique "target_id" (PyStr.sorted_set (normalize t))]
                 ++ if decide (nrows valid ≠ nrows edges)
                    then [OutSkipping (nrows edges - nrows valid)] else []))).
Proof.
  rewrite (load_data_run _ _ w u s t).
  - unfold normalized_edges, set_col. simpl.
    rewrite (assign_swap "source_id" "target_id") by done.
    by rewrite !assign_assign.
  - apply get_col_Ok. simpl. apply lookup_assign_eq.
  - apply get_col_Ok. simpl. rewrite lookup_assign_ne by done.
    apply lookup_assign_eq.
  - apply get_col_Ok. simpl. apply lookup_assign_eq.
Qed.


Lemma C8_padded : same_identifier (CStr "abc ") (CStr "abc").
Proof.
  exists "", " ", "", "", "abc". repeat split.
Defined.

Lemma C8_coerced : same_identifier (CInt 7) (CStr " 7 ").
Proof.
  exists "", "", " ", " ", "7". repeat split.
Defined.


(** C3, at the node table [user_id = ["B"; "A"]] with the edge A -> B: the
    edge index names the source A by 0 and the target B by 1, while row 0
    of the node table, and so of the feature matrix, is B (the row whose
    [user_idx] is 1 and whose [reported_risk] code is 0). *)
Theorem C3_edge_index_does_not_follow_the_row_order :
  ∃ nodes edges encoders w,
    encoded_tables C3_nodes C3_edges initial_world
    = (Ok (nodes, edges, encoders), w)
    ∧ get_col "user_id" nodes = Ok (Text ["B"; "A"])
    ∧ get_col "user_idx" nodes = Ok (Codes [1; 0])
    ∧ get_col "source_idx" edges = Ok (Codes [0])
    ∧ get_col "target_idx" edges = Ok (Codes [1])
    ∧ feature_rows nodes = Ok (MkTensor (2, 1) [[0]; [1]])
    ∧ get_col "reported_risk" nodes = Ok (Codes [0; 1]).
Proof.
  eexists _, _, _, _. split; [vm_compute; reflexivity|].
  split_and!; vm_compute; reflexivity.
Qed.


Lemma train_epochs_run n : ∀ first w,
  train_epochs first n w
  = (Ok (), MkWorld (stdout w ++ map (λ e, OutEpoch (e + 1)) (seq first n))
              (tensors w) (optimizer_steps w + n)).
Proof.
  induction n as [|n IH]; intros first w; simpl.
  - unfold mret, M_ret. destruct w. simpl. by rewrite app_nil_r, Nat.add_0_r.
  - unfold mbind, M_bind, optimizer_step. rewrite print_run, IH. simpl.
    rewrite <-app_assoc. simpl. do 2 f_equal. lia.
Qed.

Lemma train_model_run model data epochs w target :
  data_y data = Some target →
  train_model model data epochs w
  = (Ok model,
     MkWorld (stdout w ++ map (λ e, OutEpoch (e + 1)) (seq 0 epochs))
       (tensors w) (optimizer_steps w + epochs)).
Proof.
  intros Hy. unfold train_model. rewrite Hy. unfold mbind, M_bind.
  by rewrite train_epochs_run.
Qed.

Lemma build_and_train_run nodes edges w feats sidx tidx risk :
  feature_rows nodes = Ok feats →
  get_col "source_idx" edges = Ok (Codes sidx) →
  get_col "target_idx" edges = Ok (Codes tidx) →
  get_col "reported_risk" nodes = Ok (Codes risk) →
  build_and_train nodes edges w
  = (Ok (),
     MkWorld (stdout w
              ++ [OutShape "node_features" (shape feats);
                  OutShape "edge_index" (2, length sidx)]
              ++ map (λ e, OutEpoch (e + 1)) (seq 0 10) ++ [OutEmbeddings])
       (tensors w + 3) (optimizer_steps w + 10)).
Proof.
  intros Hf Hs Ht Hr. unfold feature_rows, mbind, Res_bind in Hf.
  unfold build_and_train, mbind, M_bind, Res_bind, lift, torch_tensor, print.
  rewrite Hf. cbv beta iota. rewrite Hs. cbv beta iota.
  rewrite Ht. cbv beta iota. simpl numeric. cbv beta iota.
  rewrite Hr. simpl numeric. cbv beta iota.
  erewrite train_model_run by reflexivity. cbv beta iota.
  simpl. do 2 f_equal; [|lia].
  by rewrite <-!app_assoc.
Qed.

Lemma build_and_train_no_target nodes edges w feats sidx tidx :
  feature_rows nodes = Ok feats →
  get_col "source_idx" edges = Ok (Codes sidx) →
  get_col "target_idx" edges = Ok (Codes tidx) →
  "reported_risk" ∉ names nodes →
  build_and_train nodes edges w
  = (Raise (KeyError "reported_risk"),
     MkWorld (stdout w
              ++ [OutShape "node_features" (shape feats);
                  OutShape "edge_index" (2, length sidx)])
       (tensors w + 2) (optimizer_steps w)).
Proof.
  intros Hf Hs Ht Hr%get_col_KeyError. unfold feature_rows, mbind, Res_bind in Hf.
  unfold build_and_train, mbind, M_bind, Res_bind, lift, torch_tensor, print.
  rewrite Hf. cbv beta iota. rewrite Hs. cbv beta iota.
  rewrite Ht. cbv beta iota. simpl numeric. cbv beta iota.
  rewrite Hr. cbv beta iota.
  simpl. do 2 f_equal; [|lia].
  by rewrite <-!app_assoc.
Qed.

Lemma numeric_columns_codes cols :
  Forall (λ nc : string * EncCol, ∃ v, nc.2 = Codes v) cols →
  ∃ vs, numeric_columns cols = Ok vs ∧ length vs = length cols.
Proof.
  induction 1 as [|[k c] cols [v Hv] _ (vs & Hvs & Hlen)]; simpl.
  - by exists [].
  - simpl in Hv. subst c. simpl. rewrite Hvs. simpl.
    exists (v :: vs). split; [done|]. simpl. by rewrite Hlen.
Qed.

Lemma names_map_encode_one skip cols (l : list (string * EncCol)) :
  (map (encode_one skip cols) l).*1 = l.*1.
Proof.
  induction l as [|[k c] l IH]; simpl; [done|]. f_equal; [|done].
  unfold encode_one. simpl. destruct c; [|done]. by case_decide.
Qed.

Lemma elem_of_names_assign {C} n m (c : C) cols :
  m ∈ (assign_col n c cols).*1 ↔ m = n ∨ m ∈ cols.*1.
Proof.
  destruct (decide (n ∈ cols.*1)).
  - rewrite names_assign_elem_of by done. naive_solver.
  - rewrite names_assign_fresh by done. rewrite elem_of_app, list_elem_of_singleton.
    naive_solver.
Qed.

Lemma encoded_nodes_features df encs n' encs' :
  NoDup (names df) → "user_id" ∈ names df → "user_idx" ∈ names df →
  encode_columns ["user_id"] (names df) df encs = Ok (n', encs') →
  names n' = names df ∧ ∃ feats, feature_rows n' = Ok feats.
Proof.
  intros Hnd Hid Hidx Hrun.
  destruct (encode_columns_spec ["user_id"] (names df) df encs) as [encs'' Hspec];
    [done..|].
  rewrite Hspec in Hrun. simplify_eq.
  assert (names (MkFrame (nrows df)
                   (map (encode_one ["user_id"] (names df)) (columns df)))
          = names df) as Hnames by apply names_map_encode_one.
  split; [done|].
  unfold feature_rows, drop_columns. rewrite Hnames.
  rewrite !filter_cons, filter_nil, !decide_False by (by intros []).
  simpl.
  destruct (numeric_columns_codes
              (filter (λ nc : string * EncCol, nc.1 ∉ ["user_id"; "user_idx"])
                 (map (encode_one ["user_id"] (names df)) (columns df))))
    as (vs & Hvs & _).
  { apply Forall_forall. intros nc [Hnc Hin]%list_elem_of_filter.
    apply list_elem_of_fmap in Hin as ([k c] & -> & Hin).
    unfold encode_one in *. simpl in *. destruct c as [v|v]; [|by eexists].
    rewrite decide_True; [by eexists|]. split.
    - by apply (list_elem_of_fmap_2 fst) in Hin.
    - rewrite decide_True in Hnc; [set_solver|]. split.
      + by apply (list_elem_of_fmap_2 fst) in Hin.
      + intros Hk. rewrite decide_False in Hnc; [set_solver|]. naive_solver. }
  unfold frame_values. simpl. rewrite Hvs. simpl. by eexists.
Qed.

Lemma names_astype_str df : names (astype_str df) = names df.
Proof. unfold names. simpl. apply names_map_cols. Qed.

Lemma names_loaded_nodes nodes ids :
  "user_id" ∈ names nodes →
  names (astype_str (set_col "user_id" ids nodes)) = names nodes.
Proof.
  intros Hid. rewrite names_astype_str. unfold names. simpl.
  by apply names_assign_elem_of.
Qed.

Lemma elem_of_names_indexed_nodes nodes uidx col :
  col ∈ names (indexed_nodes nodes uidx) ↔ col = "user_idx" ∨ col ∈ names nodes.
Proof.
  unfold names, indexed_nodes. simpl.
  by rewrite elem_of_names_assign, names_map_cols.
Qed.

Lemma lookup_indexed_nodes nodes uidx col :
  col ≠ "user_idx" →
  lookup_col col (columns (indexed_nodes nodes uidx))
  = Text <$> lookup_col col (columns nodes).
Proof.
  intros Hne. unfold indexed_nodes. simpl.
  rewrite lookup_assign_ne by done. apply lookup_map_cols.
Qed.

Lemma main_run nodes edges w u s t :
  get_col "user_id" nodes = Ok u →
  get_col "source_id" edges = Ok s →
  get_col "target_id" edges = Ok t →
  NoDup (names nodes) →
  ("reported_risk" ∈ names nodes →
   ∃ w', main nodes edges w = (Ok (), w')
         ∧ optimizer_steps w' = optimizer_steps w + 10
         ∧ tensors w' = tensors w + 3
         ∧ last (stdout w') = Some OutEmbeddings)
  ∧ ("reported_risk" ∉ names nodes →
     ∃ w', main nodes edges w = (Raise (KeyError "reported_risk"), w')
           ∧ optimizer_steps w' = optimizer_steps w
           ∧ tensors w' = tensors w + 2).
Proof.
  intros Hu Hs Ht Hnd.
  assert ("user_id" ∈ names nodes) as Hid.
  { apply lookup_col_is_Some. apply get_col_Ok in Hu. by rewrite Hu. }
  set (mask := valid_mask (normalize u) (normalize s) (normalize t)).
  set (n1 := set_col "user_id" (map CStr (normalize u)) nodes).
  set (e1 := select_rows mask (normalized_edges edges s t)).
  set (w1 := printed w ([OutUnique "user_id" (PyStr.sorted_set (normalize u));
                  OutUnique "source_id" (PyStr.sorted_set (normalize s));
                  OutUnique "target_id" (PyStr.sorted_set (normalize t))]
                 ++ if decide (nrows e1 ≠ nrows edges)
                    then [OutSkipping (nrows edges - nrows e1)] else [])).
  assert (load_data nodes edges w = (Ok (n1, e1), w1)) as Hload
    by by apply load_data_run.
  destruct (encode_data_total (astype_str n1) (astype_str e1) w1
              (normalize u) (mask_select mask (normalize s))
              (mask_select mask (normalize t)))
    as (uidx & sidx & tidx & n' & e' & encs1 & encs2
        & _ & _ & _ & Hn & He & Hrun).
  { apply loaded_user_id. }
  { apply loaded_source_id. }
  { apply loaded_target_id. }
  { apply kept_sources_known. }
  { apply kept_targets_known. }
  set (w2 := printed w1 (comparison_lines (normalize u)
                           (mask_select mask (normalize s))
                           (mask_select mask (normalize t)))) in Hrun.
  assert (main nodes edges w = build_and_train n' e' w2) as Hmain.
  { unfold main, mbind, M_bind. rewrite Hload. simpl.
    unfold encode_and_train, try, mbind, M_bind. by rewrite Hrun. }
  assert (names (astype_str n1) = names nodes) as Hnames
    by by apply names_loaded_nodes.
  set (idx := indexed_nodes (astype_str n1) uidx) in Hn.
  assert (NoDup (names idx)) as Hndi.
  { apply NoDup_names_indexed_nodes. by rewrite Hnames. }
  destruct (encoded_nodes_features idx ∅ n' encs1) as (Hn' & feats & Hfeats);
    [done| | |done|].
  { apply elem_of_names_indexed_nodes. right. by rewrite Hnames. }
  { apply elem_of_names_indexed_nodes. by left. }
  assert (get_col "source_idx" e' = Ok (Codes sidx)) as Hsidx.
  { eapply encoded_codes_column; [|exact He|]; [done|].
    unfold indexed_edges. simpl. rewrite lookup_assign_ne by done.
    apply lookup_assign_eq. }
  assert (get_col "target_idx" e' = Ok (Codes tidx)) as Htidx.
  { eapply encoded_codes_column; [|exact He|]; [done|].
    unfold indexed_edges. simpl. apply lookup_assign_eq. }
  assert (tensors w2 = tensors w ∧ optimizer_steps w2 = optimizer_steps w)
    as [Htw How] by done.
  split.
  - intros Hrisk.
    assert (∃ v, lookup_col "reported_risk" (columns (astype_str n1)) = Some v)
      as [v Hv].
    { apply lookup_col_is_Some. fold (names (astype_str n1)). by rewrite Hnames. }
    assert (get_col "reported_risk" n' = Ok (Codes (codes_of v))) as Hr.
    { eapply (encoded_text_column ["user_id"] (names idx) idx ∅ n' encs1);
        [exact Hndi|done|exact Hn|set_solver|].
      unfold idx. rewrite lookup_indexed_nodes by done. by rewrite Hv. }
    eexists. rewrite Hmain.
    rewrite (build_and_train_run _ _ _ _ _ _ _ Hfeats Hsidx Htidx Hr).
    split; [done|]. simpl. split_and!; [lia|lia|].
    by rewrite last_app.
  - intros Hrisk. eexists. rewrite Hmain.
    rewrite (build_and_train_no_target _ _ _ _ _ _ Hfeats Hsidx Htidx).
    + split; [done|]. simpl. lia.
    + rewrite Hn'. intros [?|?]%elem_of_names_indexed_nodes; [done|].
      apply Hrisk. by rewrite <-Hnames.
Qed.



(** [load_data] reads [user_id], then [source_id], then [target_id]: the
    first of them that is no column of its table is the [KeyError] raised,
    and nothing has been printed by then. *)
Theorem load_data_missing_column
    (nodes edges : Frame (list Cell)) (w : World) :
  ("user_id" ∉ names nodes →
   load_data nodes edges w = (Raise (KeyError "user_id"), w))
  ∧ ("user_id" ∈ names nodes → "source_id" ∉ names edges →
     load_data nodes edges w = (Raise (KeyError "source_id"), w))
  ∧ ("user_id" ∈ names nodes → "source_id" ∈ names edges →
     "target_id" ∉ names edges →
     load_data nodes edges w = (Raise (KeyError "target_id"), w)).
Proof.
  split_and!.
  - intros Hu%get_col_KeyError. unfold load_data, mbind, M_bind, lift.
    by rewrite Hu.
  - intros [u Hu]%get_col_elem_of Hs%get_col_KeyError.
    unfold load_data, mbind, M_bind, lift. by rewrite Hu, Hs.
  - intros [u Hu]%get_col_elem_of [s Hs]%get_col_elem_of Ht.
    assert (get_col "target_id"
              (set_col "source_id" (map CStr (normalize s)) edges)
            = Raise (KeyError "target_id")) as Ht'.
    { apply get_col_KeyError. unfold names. simpl.
      rewrite names_assign_elem_of; [done|].
      apply lookup_col_is_Some. apply get_col_Ok in Hs. by rewrite Hs. }
    unfold load_data, mbind, M_bind, lift. rewrite Hu, Hs.
    fold (normalize s). by rewrite Ht'.
Qed.

Lemma load_data_missing_column_witness :
  load_data X1_nodes X1_edges initial_world
  = (Raise (KeyError "user_id"), initial_world)
  ∧ load_data C1_nodes X1_edges initial_world
    = (Raise (KeyError "target_id"), initial_world).
Proof.
  split.
  - apply (proj1 (load_data_missing_column X1_nodes X1_edges initial_world)).
    by_compute.
  - apply (proj2 (proj2 (load_data_missing_column C1_nodes X1_edges
                           initial_world))); by_compute.
Defined.

Lemma mask_select_all_true {A} mask (l : list A) :
  Forall (λ b, b = true) mask → length l ≤ length mask →
  mask_select mask l = l.
Proof.
  intros Hall. revert l. induction Hall as [|b mask -> _ IH]; intros [|a l];
    simpl; try done; [lia|].
  intros Hlen. f_equal. apply IH. lia.
Qed.

Lemma filter_all_true mask :
  Forall (λ b, b = true) mask → filter (λ b, b = true) mask = mask.
Proof.
  induction 1 as [|b mask Hb _ IH]; [done|].
  by rewrite filter_cons, decide_True, IH.
Qed.

Lemma length_valid_mask u s t :
  length (valid_mask u s t) = length s `min` length t.
Proof.
  unfold valid_mask, isin. by rewrite length_zip_with, !length_map.
Qed.

Lemma valid_mask_all_true u s t :
  s ⊆ u → t ⊆ u → Forall (λ b, b = true) (valid_mask u s t).
Proof.
  intros Hs Ht. rewrite valid_mask_zip. apply Forall_forall.
  intros b ((a & c) & -> & Hin)%list_elem_of_fmap.
  apply bool_decide_eq_true. unfold valid_edge. simpl.
  rewrite !elem_of_list_to_set. split.
  - apply Hs. by eapply elem_of_zip_l.
  - apply Ht. by eapply elem_of_zip_r.
Qed.

Lemma length_mask_select_filter {A} mask (l : list A) :
  length mask ≤ length l →
  length (mask_select mask l) = length (filter (λ b, b = true) mask).
Proof.
  revert l. induction mask as [|b mask IH]; intros [|a l]; simpl; try done;
    [lia|].
  intros Hlen. rewrite filter_cons. destruct b.
  - rewrite decide_True by done. simpl. f_equal. apply IH. lia.
  - rewrite decide_False by done. apply IH. lia.
Qed.

Lemma well_formed_set_col {A} n (c : list A) df :
  well_formed df → length c = nrows df → well_formed (set_col n c df).
Proof.
  unfold well_formed. simpl. intros Hwf Hc.
  induction Hwf as [|[k c'] cols Hk Hcols IH]; simpl.
  - by repeat constructor.
  - destruct (decide (k = n)); constructor; done.
Qed.

Lemma well_formed_lookup {A} n (c : list A) df :
  well_formed df → lookup_col n (columns df) = Some c → length c = nrows df.
Proof.
  unfold well_formed. intros Hwf Hc%lookup_col_elem_of.
  rewrite Forall_forall in Hwf. by apply (Hwf (n, c)).
Qed.

Lemma well_formed_normalized_edges edges s t :
  well_formed edges →
  get_col "source_id" edges = Ok s → get_col "target_id" edges = Ok t →
  well_formed (normalized_edges edges s t).
Proof.
  intros Hwf Hs%get_col_Ok Ht%get_col_Ok. unfold normalized_edges.
  apply well_formed_set_col; [apply well_formed_set_col; [done|]|].
  - rewrite length_map, length_normalize. by eapply well_formed_lookup.
  - simpl. rewrite length_map, length_normalize. by eapply well_formed_lookup.
Qed.

Lemma select_rows_all_true {A} mask (df : Frame (list A)) :
  well_formed df → Forall (λ b, b = true) mask → length mask = nrows df →
  select_rows mask df = df.
Proof.
  intros Hwf Hall Hlen. destruct df as [n cols]. unfold select_rows. simpl in *.
  rewrite filter_all_true by done. f_equal; [done|].
  unfold well_formed in Hwf. simpl in Hwf.
  induction Hwf as [|[k c] cols Hk _ IH]; simpl; [done|].
  rewrite IH. f_equal. f_equal. apply mask_select_all_true; [done|].
  simpl in Hk. lia.
Qed.

(** When the edge table has one value per row in every column and every
    normalised endpoint is a node identifier, [load_data] drops nothing: it
    returns the edge table with its two identifier columns normalised, and
    prints its three lines and no "Skipping" line. *)
Theorem load_data_keeps_all_known_edges
    (nodes edges : Frame (list Cell)) (w : World) (u s t : list Cell) :
  get_col "user_id" nodes = Ok u →
  get_col "source_id" edges = Ok s →
  get_col "target_id" edges = Ok t →
  well_formed edges →
  normalize s ⊆ normalize u →
  normalize t ⊆ normalize u →
  load_data nodes edges w
  = (Ok (set_col "user_id" (map CStr (normalize u)) nodes,
         normalized_edges edges s t),
     printed w [OutUnique "user_id" (PyStr.sorted_set (normalize u));
                OutUnique "source_id" (PyStr.sorted_set (normalize s));
                OutUnique "target_id" (PyStr.sorted_set (normalize t))]).
Proof.
  intros Hu Hs Ht Hwf Hsu Htu.
  rewrite (load_data_run nodes edges w u s t Hu Hs Ht).
  assert (length (normalize s) = nrows edges) as Hls.
  { rewrite length_normalize. apply get_col_Ok in Hs.
    by eapply well_formed_lookup. }
  assert (length (normalize t) = nrows edges) as Hlt.
  { rewrite length_normalize. apply get_col_Ok in Ht.
    by eapply well_formed_lookup. }
  rewrite select_rows_all_true.
  - rewrite decide_False by (intros H; by apply H). by rewrite app_nil_r.
  - by apply well_formed_normalized_edges.
  - by apply valid_mask_all_true.
  - rewrite length_valid_mask. change (nrows (normalized_edges edges s t))
      with (nrows edges). lia.
Qed.

Lemma load_data_keeps_all_known_edges_witness :
  ∃ nodes',
    load_data C1_nodes
      (MkFrame 1 [("source_id", [CStr " A"]); ("target_id", [CStr "B "])])
      initial_world
    = (Ok (nodes',
           MkFrame 1 [("source_id", [CStr "A"]); ("target_id", [CStr "B"])]),
       printed initial_world
         [OutUnique "user_id" ["A"; "B"]; OutUnique "source_id" ["A"];
          OutUnique "target_id" ["B"]]).
Proof.
  eexists.
  rewrite (load_data_keeps_all_known_edges C1_nodes
             (MkFrame 1 [("source_id", [CStr " A"]); ("target_id", [CStr "B "])])
             initial_world [CStr "A"; CStr "B"] [CStr " A"] [CStr "B "]
             eq_refl eq_refl eq_refl ltac:(by_compute) ltac:(by_compute)
             ltac:(by_compute)).
  vm_compute. reflexivity.
Defined.

Lemma lstrip_idempotent s : PyStr.lstrip (PyStr.lstrip s) = PyStr.lstrip s.
Proof.
  induction s as [|c s IH]; simpl; [done|].
  destruct (PyStr.isspace c) eqn:Hc; [done|]. simpl. by rewrite Hc.
Qed.

Lemma rstrip_idempotent s : PyStr.rstrip (PyStr.rstrip s) = PyStr.rstrip s.
Proof.
  induction s as [|c s IH]; simpl; [done|].
  destruct (PyStr.isspace c && PyStr.is_empty (PyStr.rstrip s)) eqn:Hc;
    [done|].
  simpl. by rewrite IH, Hc.
Qed.

Lemma rstrip_lstrip_fixed s :
  PyStr.rstrip s = s → PyStr.rstrip (PyStr.lstrip s) = PyStr.lstrip s.
Proof.
  induction s as [|c s IH]; simpl; [done|].
  destruct (PyStr.isspace c) eqn:Hc; simpl.
  - destruct (PyStr.is_empty (PyStr.rstrip s)); [done|].
    intros [= Hs]. auto.
  - by rewrite Hc.
Qed.

Lemma strip_idempotent s : PyStr.strip (PyStr.strip s) = PyStr.strip s.
Proof.
  unfold PyStr.strip.
  rewrite (rstrip_lstrip_fixed (PyStr.rstrip s)) by apply rstrip_idempotent.
  apply lstrip_idempotent.
Qed.

Lemma map_strip_idempotent l :
  map PyStr.strip (map PyStr.strip l) = map PyStr.strip l.
Proof.
  rewrite map_map. apply map_ext. intros s. apply strip_idempotent.
Qed.

Lemma normalize_normalize raw :
  normalize (map CStr (normalize raw)) = normalize raw.
Proof.
  rewrite normalize_CStr. unfold normalize, str_strip.
  apply map_strip_idempotent.
Qed.

Lemma assign_col_same {C} n (c : C) cols :
  lookup_col n cols = Some c → assign_col n c cols = cols.
Proof.
  induction cols as [|[k c'] cols IH]; simpl; [done|].
  destruct (decide (k = n)) as [->|]; [by intros [= ->]|].
  intros H. by rewrite IH.
Qed.

Lemma well_formed_select_rows {A} mask (df : Frame (list A)) :
  well_formed df → length mask ≤ nrows df → well_formed (select_rows mask df).
Proof.
  unfold well_formed. simpl. intros Hwf Hlen.
  induction Hwf as [|[k c] cols Hk _ IH]; simpl; constructor; [|done].
  simpl in *. apply length_mask_select_filter. lia.
Qed.

Lemma normalize_mask_select mask raw :
  normalize (map CStr (mask_select mask (normalize raw)))
  = mask_select mask (normalize raw).
Proof.
  rewrite normalize_CStr. unfold normalize, str_strip.
  rewrite <-mask_select_map. by rewrite map_strip_idempotent.
Qed.

(** [load_data] is idempotent on tables whose edge columns have one value
    per row: run on the tables it returned, it returns them unchanged and
    prints no "Skipping" line, since identifiers are already stripped and
    every edge it kept is valid. *)
Theorem load_data_idempotent
    (nodes edges : Frame (list Cell)) (w w' : World) (u s t : list Cell)
    (nodes' valid_edges : Frame (list Cell)) (w1 : World) :
  get_col "user_id" nodes = Ok u →
  get_col "source_id" edges = Ok s →
  get_col "target_id" edges = Ok t →
  well_formed edges →
  load_data nodes edges w = (Ok (nodes', valid_edges), w1) →
  ∃ source_id target_id,
    get_col "source_id" valid_edges = Ok (map CStr source_id)
    ∧ get_col "target_id" valid_edges = Ok (map CStr target_id)
    ∧ load_data nodes' valid_edges w'
      = (Ok (nodes', valid_edges),
         printed w' [OutUnique "user_id" (PyStr.sorted_set (normalize u));
                     OutUnique "source_id" (PyStr.sorted_set source_id);
                     OutUnique "target_id" (PyStr.sorted_set target_id)]).
Proof.
  intros Hu Hs Ht Hwf Hrun.
  rewrite (load_data_run nodes edges w u s t Hu Hs Ht) in Hrun.
  set (mask := valid_mask (normalize u) (normalize s) (normalize t)) in *.
  injection Hrun as <- <- _.
  set (e1 := select_rows mask (normalized_edges edges s t)).
  set (n1 := set_col "user_id" (map CStr (normalize u)) nodes).
  assert (lookup_col "source_id" (columns e1)
          = Some (map CStr (mask_select mask (normalize s)))) as Hks.
  { rewrite <-mask_select_map. apply get_col_Ok.
    apply get_col_select_rows, normalized_source. }
  assert (lookup_col "target_id" (columns e1)
          = Some (map CStr (mask_select mask (normalize t)))) as Hkt.
  { rewrite <-mask_select_map. apply get_col_Ok.
    apply get_col_select_rows, normalized_target. }
  assert (length (normalize s) = nrows edges) as Hls.
  { rewrite length_normalize. apply get_col_Ok in Hs.
    by eapply well_formed_lookup. }
  assert (length (normalize t) = nrows edges) as Hlt.
  { rewrite length_normalize. apply get_col_Ok in Ht.
    by eapply well_formed_lookup. }
  assert (length mask = nrows edges) as Hlm.
  { unfold mask. rewrite length_valid_mask. lia. }
  assert (well_formed e1) as Hwf1.
  { apply well_formed_select_rows; [by apply well_formed_normalized_edges|].
    simpl. lia. }
  exists (mask_select mask (normalize s)), (mask_select mask (normalize t)).
  split; [by apply get_col_Ok|]. split; [by apply get_col_Ok|].
  rewrite (load_data_run n1 e1 w' (map CStr (normalize u))
             (map CStr (mask_select mask (normalize s)))
             (map CStr (mask_select mask (normalize t)))).
  2:{ apply get_col_Ok. simpl. apply lookup_assign_eq. }
  2:{ by apply get_col_Ok. }
  2:{ by apply get_col_Ok. }
  rewrite normalize_normalize, !normalize_mask_select.
  assert (normalized_edges e1 (map CStr (mask_select mask (normalize s)))
            (map CStr (mask_select mask (normalize t))) = e1) as ->.
  { unfold normalized_edges, set_col. rewrite !normalize_mask_select.
    destruct e1 as [n cols] eqn:He1. simpl in *. f_equal.
    rewrite (assign_col_same "source_id") by done.
    by apply assign_col_same. }
  rewrite select_rows_all_true; [|done| |].
  - rewrite decide_False by (intros H; by apply H).
    unfold n1, set_col. simpl. by rewrite assign_assign, ?app_nil_r.
  - apply valid_mask_all_true;
      [apply kept_sources_known|apply kept_targets_known].
  - rewrite length_valid_mask.
    assert (length (mask_select mask (normalize s)) = nrows e1) as ->.
    { simpl. apply length_mask_select_filter. lia. }
    assert (length (mask_select mask (normalize t)) = nrows e1) as ->.
    { simpl. apply length_mask_select_filter. lia. }
    lia.
Qed.

Lemma load_data_idempotent_witness :
  load_data C1_nodes (MkFrame 1 [("source_id", [CStr "A"]); ("target_id", [CStr "B"])])
    initial_world
  = (Ok (C1_nodes,
         MkFrame 1 [("source_id", [CStr "A"]); ("target_id", [CStr "B"])]),
     printed initial_world
       [OutUnique "user_id" ["A"; "B"]; OutUnique "source_id" ["A"];
        OutUnique "target_id" ["B"]]).
Proof.
  destruct (load_data_idempotent C1_nodes C1_edges initial_world initial_world
              [CStr "A"; CStr "B"] [CStr "A"; CStr "A"] [CStr "B"; CStr "C"]
              C1_nodes
              (MkFrame 1 [("source_id", [CStr "A"]); ("target_id", [CStr "B"])])
              (MkWorld [OutUnique "user_id" ["A"; "B"];
                        OutUnique "source_id" ["A"];
                        OutUnique "target_id" ["B"; "C"]; OutSkipping 1] 0 0)
              eq_refl eq_refl eq_refl ltac:(by_compute))
    as (ks & kt & Hks & Hkt & Hrun).
  - vm_compute. reflexivity.
  - vm_compute in Hks, Hkt.
    injection Hks as Hks. injection Hkt as Hkt.
    destruct ks as [|a [|]]; try discriminate Hks.
    destruct kt as [|b [|]]; try discriminate Hkt.
    injection Hks as <-. injection Hkt as <-. exact Hrun.
Defined.

Lemma length_fit_le u : length (LabelEncoder.fit u) ≤ length u.
Proof.
  unfold LabelEncoder.fit. apply submseteq_length, NoDup_submseteq.
  - apply NoDup_sorted_set.
  - intros v. by rewrite elem_of_sorted_set.
Qed.

Lemma length_fit_NoDup u : length (LabelEncoder.fit u) = length u ↔ NoDup u.
Proof.
  unfold LabelEncoder.fit. split.
  - intros Hlen.
    assert (PyStr.sorted_set u ⊆+ u) as Hsub.
    { apply NoDup_submseteq; [apply NoDup_sorted_set|].
      intros v. by rewrite elem_of_sorted_set. }
    apply submseteq_length_Permutation in Hsub; [|lia].
    rewrite <-Hsub. apply NoDup_sorted_set.
  - intros Hn. by rewrite (sorted_set_Permutation u Hn).
Qed.

Lemma transform_fit_lookup u ys codes :
  LabelEncoder.transform (LabelEncoder.fit u) ys = Ok codes →
  Forall2 (λ v i, LabelEncoder.fit u !! i = Some v) ys codes.
Proof.
  intros Hc.
  destruct (decide (Exists (λ v, v ∉ LabelEncoder.fit u) ys)) as [Hex|Hall].
  - destruct (transform_unseen _ _ Hex) as (v & _ & _ & Hr). congruence.
  - apply not_Exists_Forall in Hall; [|apply _].
    destruct (transform_ok (LabelEncoder.fit u) ys) as (codes' & Hc' & Hf).
    { intros v Hv. rewrite Forall_forall in Hall. specialize (Hall v Hv).
      simpl in Hall. by destruct (decide (v ∈ LabelEncoder.fit u)). }
    rewrite Hc' in Hc. simplify_eq. eapply Forall2_impl; [done|].
    intros v i. simpl. apply table_lookup, NoDup_sorted_set.
Qed.

(** The integers [encode_data] writes into [source_idx] and [target_idx]
    join the edges to the nodes through [user_idx]: an endpoint has the
    integer of exactly the node rows that hold its identifier, the class at
    that integer is the endpoint itself, and every such integer is below
    the number of node rows. *)
Theorem encode_data_edge_indices_join_user_idx
    (nodes edges : Frame (list string)) (w : World) (u s t : list string) :
  get_col "user_id" nodes = Ok u →
  get_col "source_id" edges = Ok s →
  get_col "target_id" edges = Ok t →
  s ⊆ u → t ⊆ u →
  ∃ nodes' edges' encoders w' user_idx source_idx target_idx,
    encode_data nodes edges w = (Ok (nodes', edges', encoders), w')
    ∧ get_col "user_idx" nodes' = Ok (Codes user_idx)
    ∧ get_col "source_idx" edges' = Ok (Codes source_idx)
    ∧ get_col "target_idx" edges' = Ok (Codes target_idx)
    ∧ Forall2 (λ v i, LabelEncoder.fit u !! i = Some v) s source_idx
    ∧ Forall2 (λ v i, LabelEncoder.fit u !! i = Some v) t target_idx
    ∧ Forall (λ i, i < length u) (source_idx ++ target_idx)
    ∧ ∀ k p v v' i j,
        (s ++ t) !! k = Some v → u !! p = Some v' →
        (source_idx ++ target_idx) !! k = Some i → user_idx !! p = Some j →
        (i = j ↔ v = v').
Proof.
  intros Hu Hs Ht Hsu Htu.
  destruct (encode_data_total nodes edges w u s t Hu Hs Ht Hsu Htu)
    as (uidx & sidx & tidx & n' & e' & encs1 & encs2
        & Huidx & Hsidx & Htidx & Hn & He & Hrun).
  apply transform_fit_lookup in Huidx, Hsidx, Htidx.
  assert (Forall2 (λ v i, LabelEncoder.fit u !! i = Some v) (s ++ t) (sidx ++ tidx))
    as Hst by by apply Forall2_app.
  exists n', e', encs2, (printed w (comparison_lines u s t)), uidx, sidx, tidx.
  split_and!; try done.
  - eapply encoded_codes_column; [|exact Hn|]; [done|].
    unfold indexed_nodes. simpl. apply lookup_assign_eq.
  - eapply encoded_codes_column; [|exact He|]; [done|].
    unfold indexed_edges. simpl. rewrite lookup_assign_ne by done.
    apply lookup_assign_eq.
  - eapply encoded_codes_column; [|exact He|]; [done|].
    unfold indexed_edges. simpl. apply lookup_assign_eq.
  - apply Forall_forall. intros i (k & Hk)%list_elem_of_lookup.
    destruct (Forall2_lookup_r _ _ _ _ _ Hst Hk)
      as (v & _ & Hv).
    apply lookup_lt_Some in Hv. pose proof (length_fit_le u). lia.
  - intros k p v v' i j Hk Hp Hi Hj.
    destruct (Forall2_lookup_l _ _ _ _ _ Hst Hk)
      as (i' & Hi' & Hv).
    destruct (Forall2_lookup_l _ _ _ _ _ Huidx Hp) as (j' & Hj' & Hv').
    simplify_eq. split.
    + intros <-. congruence.
    + intros <-. eapply (NoDup_lookup (LabelEncoder.fit u)); eauto.
      apply NoDup_sorted_set.
Qed.

Lemma encode_data_edge_indices_join_user_idx_witness :
  ∃ nodes' edges' encoders w',
    encode_data C2_nodes C2_edges initial_world
    = (Ok (nodes', edges', encoders), w')
    ∧ get_col "source_idx" edges' = Ok (Codes [1])
    ∧ get_col "target_idx" edges' = Ok (Codes [2]).
Proof.
  destruct (encode_data_edge_indices_join_user_idx C2_nodes C2_edges
              initial_world ["carol"; "alice"; "bob"] ["bob"] ["carol"]
              eq_refl eq_refl eq_refl ltac:(by_compute) ltac:(by_compute))
    as (n' & e' & encs & w' & uidx & sidx & tidx
        & Hrun & _ & Hs & Ht & _).
  exists n', e', encs, w'. split; [exact Hrun|].
  vm_compute in Hrun. injection Hrun as _ <- _ _.
  split; vm_compute; reflexivity.
Defined.

(** Duplicate node identifiers are encoded without error: rows with the
    same identifier get the same [user_idx], rows with different
    identifiers different ones, the integers used are [0 .. k-1] for the
    [k] distinct identifiers, and [k] is the number of rows exactly when no
    identifier is repeated. *)
Theorem user_idx_with_duplicate_identifiers (u : list string) :
  ∃ user_idx,
    LabelEncoder.transform (LabelEncoder.fit u) u = Ok user_idx
    ∧ bijective_codes u user_idx
    ∧ length (LabelEncoder.fit u) ≤ length u
    ∧ (length (LabelEncoder.fit u) = length u ↔ NoDup u).
Proof.
  destruct (fit_indices u) as (codes & Hc & Hf). exists codes.
  split_and!; [done|by apply sorted_codes_bijective|apply length_fit_le
              |apply length_fit_NoDup].
Qed.

Lemma sorted_set_of_sorted u :
  StronglySorted PyStr.lt u → PyStr.sorted_set u = u.
Proof.
  intros Hs.
  assert (NoDup u) as Hn.
  { induction Hs as [|a l _ IH Hall]; constructor; [|done].
    intros Hin. rewrite Forall_forall in Hall. by eapply lt_irrefl, Hall. }
  apply (StronglySorted_unique PyStr.le).
  - apply sorted_set_sorted.
  - induction Hs as [|a l _ IH Hall]; constructor.
    + apply IH. by apply NoDup_cons in Hn as [_ ?].
    + eapply Forall_impl; [done|]. intros b Hab. apply le_lt_or_eq. by left.
  - by apply sorted_set_Permutation.
Qed.

Lemma lookup_total_codes (u : list string) codes :
  NoDup u → Forall2 (λ v i, u !! i = Some v) u codes →
  codes = seq 0 (length u).
Proof.
  intros Hn Hf. apply list_eq. intros p.
  destruct (decide (p < length u)) as [Hp|Hp].
  - rewrite lookup_seq_lt by done. simpl.
    destruct (lookup_lt_is_Some_2 u p Hp) as [v Hv].
    destruct (Forall2_lookup_l _ _ _ _ _ Hf Hv) as (i & Hi & Hvi).
    rewrite Hi. f_equal. by eapply NoDup_lookup.
  - rewrite lookup_seq_ge by lia. apply lookup_ge_None.
    rewrite <-(Forall2_length _ _ _ Hf). lia.
Qed.

(** The integer of a node is its row position exactly when the node table
    is in strictly increasing order of [user_id]: only then does an index
    of [edge_index] name the row of [node_features] with the same
    number. *)
Theorem user_idx_is_row_position_iff_sorted (u : list string) :
  LabelEncoder.transform (LabelEncoder.fit u) u = Ok (seq 0 (length u))
  ↔ StronglySorted PyStr.lt u.
Proof.
  split.
  - intros Hc. apply transform_fit_lookup in Hc.
    assert (LabelEncoder.fit u = u) as Hfit.
    { apply list_eq. intros p. destruct (u !! p) as [v|] eqn:Hv.
      - destruct (Forall2_lookup_l _ _ _ _ _ Hc Hv) as (i & Hi & Hvi).
        apply lookup_seq in Hi as [-> _]. done.
      - apply lookup_ge_None. apply lookup_ge_None in Hv.
        pose proof (length_fit_le u). lia. }
    unfold LabelEncoder.fit in Hfit.
    pose proof (sorted_set_sorted u) as Hs.
    pose proof (NoDup_sorted_set u) as Hn. rewrite Hfit in Hs, Hn.
    clear Hc Hfit. induction Hs as [|a l _ IH Hall]; constructor.
    + apply IH. by apply NoDup_cons in Hn as [_ ?].
    + apply NoDup_cons in Hn as [Ha _]. rewrite Forall_forall in Hall |- *.
      intros b Hb. destruct (proj1 (le_lt_or_eq a b) (Hall b Hb)) as [?| ->];
        done.
  - intros Hs. destruct (fit_indices u) as (codes & Hc & Hf).
    rewrite Hc. f_equal. unfold LabelEncoder.fit in Hf.
    rewrite (sorted_set_of_sorted u Hs) in Hf.
    apply lookup_total_codes; [|done].
    rewrite <-(sorted_set_of_sorted u Hs). apply NoDup_sorted_set.
Qed.

Lemma user_idx_is_row_position_iff_sorted_witness :
  LabelEncoder.transform (LabelEncoder.fit ["alice"; "bob"; "carol"])
    ["alice"; "bob"; "carol"] = Ok [0; 1; 2]
  ∧ ¬ StronglySorted PyStr.lt ["B"; "A"].
Proof.
  split.
  - apply (proj2 (user_idx_is_row_position_iff_sorted
                    ["alice"; "bob"; "carol"])).
    by_compute.
  - intros Hs.
    apply (proj2 (user_idx_is_row_position_iff_sorted ["B"; "A"])) in Hs.
    vm_compute in Hs. discriminate Hs.
Defined.

Lemma encode_columns_encoders skip cols :
  ∀ (df : Frame EncCol) (encs : Encoders) df' encs',
    encode_columns skip cols df encs = Ok (df', encs') →
    ∀ col, encs' !! col = encoder_entry skip cols df encs col.
Proof.
  induction cols as [|c rest IH]; intros df encs df' encs' Hrun col;
    simpl in Hrun.
  { injection Hrun as <- <-. unfold encoder_entry.
    destruct (lookup_col col (columns df)) as [[v|v]|]; try done. }
  destruct (decide (c ∈ skip)) as [Hskip|Hskip].
  { rewrite (IH _ _ _ _ Hrun col). unfold encoder_entry.
    destruct (lookup_col col (columns df)) as [[v|v]|]; try done.
    apply decide_ext. rewrite elem_of_cons. naive_solver. }
  destruct (get_col c df) as [x|e] eqn:Hc; simpl in Hrun; [|done].
  apply get_col_Ok in Hc. destruct x as [v|v].
  - rewrite fit_transform_codes_of in Hrun. simpl in Hrun.
    rewrite (IH _ _ _ _ Hrun col). unfold encoder_entry. simpl.
    destruct (decide (col = c)) as [->|Hne].
    + rewrite lookup_assign_eq, Hc, lookup_insert_eq.
      rewrite decide_True; [done|]. split; [set_solver|done].
    + rewrite lookup_assign_ne by done. rewrite lookup_insert_ne by done.
      destruct (lookup_col col (columns df)) as [[v'|v']|]; try done.
      apply decide_ext. rewrite elem_of_cons. naive_solver.
  - rewrite (IH _ _ _ _ Hrun col). unfold encoder_entry.
    destruct (decide (col = c)) as [->|Hne]; [by rewrite Hc|].
    destruct (lookup_col col (columns df)) as [[v'|v']|]; try done.
    apply decide_ext. rewrite elem_of_cons. naive_solver.
Qed.

Lemma lookup_indexed_edges edges sidx tidx col :
  col ≠ "source_idx" → col ≠ "target_idx" →
  lookup_col col (columns (indexed_edges edges sidx tidx))
  = Text <$> lookup_col col (columns edges).
Proof.
  intros Hs Ht. unfold indexed_edges. simpl.
  rewrite !lookup_assign_ne by done. apply lookup_map_cols.
Qed.

Lemma node_encoders nodes uidx n' encs1 col :
  encode_columns ["user_id"] (names (indexed_nodes nodes uidx))
    (indexed_nodes nodes uidx) ∅ = Ok (n', encs1) →
  encs1 !! col = node_encoder_entry nodes col.
Proof.
  intros Hn. rewrite (encode_columns_encoders _ _ _ _ _ _ Hn col).
  unfold encoder_entry, node_encoder_entry.
  destruct (decide (col = "user_idx")) as [->|Hidx].
  { unfold indexed_nodes, set_col. cbn [columns].
    rewrite lookup_assign_eq, lookup_empty.
    destruct (lookup_col "user_idx" (columns nodes)); [|done].
    rewrite decide_False; [done|]. intros H. apply H. by_compute. }
  rewrite lookup_indexed_nodes by done.
  destruct (lookup_col col (columns nodes)) as [v|] eqn:Hv; simpl;
    [|by rewrite lookup_empty].
  rewrite lookup_empty. apply decide_ext.
  assert (col ∈ names (indexed_nodes nodes uidx)) as Hin.
  { apply elem_of_names_indexed_nodes. right. apply lookup_col_is_Some.
    by rewrite Hv. }
  rewrite !not_elem_of_cons. naive_solver.
Qed.

Lemma edge_encoders edges sidx tidx e' encs1 encs2 col :
  encode_columns edge_skip (names (indexed_edges edges sidx tidx))
    (indexed_edges edges sidx tidx) encs1 = Ok (e', encs2) →
  encs2 !! col
  = match lookup_col col (columns edges) with
    | Some values =>
        if decide (col ∉ edge_skip) then Some (LabelEncoder.fit values)
        else encs1 !! col
    | None => encs1 !! col
    end.
Proof.
  intros He. rewrite (encode_columns_encoders _ _ _ _ _ _ He col).
  unfold encoder_entry.
  destruct (decide (col = "source_idx")) as [->|Hs].
  { unfold indexed_edges, set_col. cbn [columns].
    rewrite lookup_assign_ne by done. rewrite lookup_assign_eq.
    destruct (lookup_col "source_idx" (columns edges)); [|done].
    rewrite decide_False; [done|]. intros H. apply H. by_compute. }
  destruct (decide (col = "target_idx")) as [->|Ht].
  { unfold indexed_edges, set_col. cbn [columns].
    rewrite lookup_assign_eq.
    destruct (lookup_col "target_idx" (columns edges)); [|done].
    rewrite decide_False; [done|]. intros H. apply H. by_compute. }
  rewrite lookup_indexed_edges by done.
  destruct (lookup_col col (columns edges)) as [v|] eqn:Hv; simpl; [|done].
  apply decide_ext. split; [naive_solver|]. intros Hskip. split; [|done].
  apply lookup_col_is_Some. rewrite lookup_indexed_edges by done.
  by rewrite Hv.
Qed.

(** The dictionary [encode_data] returns holds, under the name of every
    encoded column, the classes fitted on that column: the node columns
    other than [user_id] and [user_idx], then the edge columns other than
    the four identifier columns, which replace a node entry of the same
    name. It holds nothing else: the encoder of the identifiers is not in
    it. *)
Theorem encode_data_encoders_dictionary
    (nodes edges : Frame (list string)) (w : World) (u s t : list string) :
  get_col "user_id" nodes = Ok u →
  get_col "source_id" edges = Ok s →
  get_col "target_id" edges = Ok t →
  s ⊆ u → t ⊆ u →
  ∃ nodes' edges' encoders w',
    encode_data nodes edges w = (Ok (nodes', edges', encoders), w')
    ∧ (∀ col, encoders !! col = encoders_entry nodes edges col)
    ∧ ("user_id" ∉ names edges → encoders !! "user_id" = None).
Proof.
  intros Hu Hs Ht Hsu Htu.
  destruct (encode_data_total nodes edges w u s t Hu Hs Ht Hsu Htu)
    as (uidx & sidx & tidx & n' & e' & encs1 & encs2
        & _ & _ & _ & Hn & He & Hrun).
  exists n', e', encs2, (printed w (comparison_lines u s t)).
  assert (∀ col, encs2 !! col = encoders_entry nodes edges col) as Hall.
  { intros col. rewrite (edge_encoders _ _ _ _ _ _ col He).
    unfold encoders_entry. by rewrite !(node_encoders _ _ _ _ col Hn). }
  split_and!; [done|done|].
  intros Hne%lookup_col_None. rewrite Hall. unfold encoders_entry.
  rewrite Hne. unfold node_encoder_entry.
  destruct (lookup_col "user_id" (columns nodes)); [|done].
  rewrite decide_False; [done|]. intros H. apply H. by_compute.
Qed.

Lemma encode_data_encoders_dictionary_witness :
  ∃ nodes' edges' encoders w',
    encode_data X5_nodes X5_edges initial_world
    = (Ok (nodes', edges', encoders), w')
    ∧ encoders !! "kind" = Some ["z"]
    ∧ encoders !! "user_id" = None.
Proof.
  destruct (encode_data_encoders_dictionary X5_nodes X5_edges initial_world
              ["A"; "B"] ["A"] ["B"] eq_refl eq_refl eq_refl
              ltac:(by_compute) ltac:(by_compute))
    as (n' & e' & encs & w' & Hrun & Hall & Hid).
  exists n', e', encs, w'. split; [exact Hrun|]. split.
  - rewrite Hall. vm_compute. reflexivity.
  - apply Hid. by_compute.
Defined.

(** Decoding: for tables with pairwise distinct column names, looking the
    codes of an encoded edge column up in the classes kept under its name
    gives back the strings of the column; the same holds for an encoded
    node column whose name is not that of an encoded edge column. *)
Theorem encoded_columns_decode
    (nodes edges : Frame (list string)) (w : World) (u s t : list string) :
  get_col "user_id" nodes = Ok u →
  get_col "source_id" edges = Ok s →
  get_col "target_id" edges = Ok t →
  s ⊆ u → t ⊆ u →
  NoDup (names nodes) → NoDup (names edges) →
  ∃ nodes' edges' encoders w',
    encode_data nodes edges w = (Ok (nodes', edges', encoders), w')
    ∧ (∀ col values,
         col ∉ edge_skip →
         lookup_col col (columns edges) = Some values →
         ∃ classes codes,
           encoders !! col = Some classes
           ∧ get_col col edges' = Ok (Codes codes)
           ∧ Forall2 (λ v i, classes !! i = Some v) values codes)
    ∧ (∀ col values,
         col ∉ ["user_id"; "user_idx"] →
         (col ∈ edge_skip ∨ col ∉ names edges) →
         lookup_col col (columns nodes) = Some values →
         ∃ classes codes,
           encoders !! col = Some classes
           ∧ get_col col nodes' = Ok (Codes codes)
           ∧ Forall2 (λ v i, classes !! i = Some v) values codes).
Proof.
  intros Hu Hs Ht Hsu Htu Hnn Hne.
  destruct (encode_data_total nodes edges w u s t Hu Hs Ht Hsu Htu)
    as (uidx & sidx & tidx & n' & e' & encs1 & encs2
        & _ & _ & _ & Hn & He & Hrun).
  exists n', e', encs2, (printed w (comparison_lines u s t)).
  split; [done|]. split.
  - intros col values Hcol Hl.
    exists (PyStr.sorted_set values), (codes_of values). split_and!.
    + rewrite (edge_encoders _ _ _ _ _ _ col He), Hl. by rewrite decide_True.
    + eapply (encoded_text_column edge_skip _ (indexed_edges edges sidx tidx));
        [|done|exact He|done|].
      * by apply NoDup_names_indexed_edges.
      * unfold edge_skip in Hcol. rewrite lookup_indexed_edges by set_solver.
        by rewrite Hl.
    + apply codes_of_lookup.
  - intros col values Hcol Hedge Hl.
    exists (PyStr.sorted_set values), (codes_of values). split_and!.
    + rewrite (edge_encoders _ _ _ _ _ _ col He).
      rewrite (node_encoders _ _ _ _ col Hn). unfold node_encoder_entry.
      rewrite Hl, (decide_True (P := col ∉ ["user_id"; "user_idx"])) by done.
      destruct (lookup_col col (columns edges)) as [v|] eqn:Hv; [|done].
      rewrite decide_False; [done|]. intros Hskip.
      destruct Hedge as [?|Hnot]; [done|]. apply Hnot.
      apply lookup_col_is_Some. by rewrite Hv.
    + eapply (encoded_text_column ["user_id"] _ (indexed_nodes nodes uidx));
        [|done|exact Hn|set_solver|].
      * by apply NoDup_names_indexed_nodes.
      * rewrite lookup_indexed_nodes by set_solver. by rewrite Hl.
    + apply codes_of_lookup.
Qed.

Lemma encoded_columns_decode_witness :
  ∃ (edges' : Frame EncCol) (encoders : Encoders) (classes : list string) codes,
    encoders !! "channel" = Some classes
    ∧ get_col "channel" edges' = Ok (Codes codes)
    ∧ Forall2 (λ v i, classes !! i = Some v) ["west"; "app"] codes.
Proof.
  destruct (encoded_columns_decode C7_nodes C7_edges initial_world
              ["A"; "B"; "C"] ["A"; "B"] ["B"; "C"] eq_refl eq_refl eq_refl
              ltac:(by_compute) ltac:(by_compute) ltac:(by_compute)
              ltac:(by_compute))
    as (n' & e' & encs & w' & _ & Hedges & _).
  destruct (Hedges "channel" ["west"; "app"] ltac:(by_compute) eq_refl)
    as (classes & codes & H1 & H2 & H3).
  exists e', encs, classes, codes. split; [exact H1|]. split; [exact H2|exact H3].
Defined.

Lemma encode_and_train_reraises nodes edges w e w' :
  encode_data nodes edges w = (Raise e, w') →
  (∀ msg, e ≠ ValueError msg) →
  encode_and_train nodes edges w = (Raise e, w').
Proof.
  intros Hrun Hne. unfold encode_and_train, try, mbind, M_bind. rewrite Hrun.
  destruct e as [k|msg|]; try done. by destruct (Hne msg).
Qed.

(** The [try] statement of [main] catches [ValueError] only: any other
    exception of [encode_data] leaves [main] as it was raised, with no
    error line printed. [encode_data] raises such a [KeyError] for the first
    of [source_id], [user_id], [target_id] that is no column, after its
    header line. *)
Theorem encode_and_train_does_not_catch_KeyError
    (nodes edges : Frame (list string)) (w : World) :
  (∀ e w', encode_data nodes edges w = (Raise e, w') →
           (∀ msg, e ≠ ValueError msg) →
           encode_and_train nodes edges w = (Raise e, w'))
  ∧ ("source_id" ∉ names edges →
     encode_and_train nodes edges w
     = (Raise (KeyError "source_id"), printed w [OutDirectComparison]))
  ∧ ("source_id" ∈ names edges → "user_id" ∉ names nodes →
     encode_and_train nodes edges w
     = (Raise (KeyError "user_id"), printed w [OutDirectComparison]))
  ∧ (∀ s u, get_col "source_id" edges = Ok s → get_col "user_id" nodes = Ok u →
     "target_id" ∉ names edges →
     encode_and_train nodes edges w
     = (Raise (KeyError "target_id"),
        printed w [OutDirectComparison;
                   OutNotInNodes "source_id" (list_to_set s ∖ list_to_set u)])).
Proof.
  split_and!.
  - intros e w'. apply encode_and_train_reraises.
  - intros Hs%get_col_KeyError. apply encode_and_train_reraises; [|done].
    unfold encode_data, mbind, M_bind, lift. by rewrite print_run, Hs.
  - intros [s Hs]%get_col_elem_of Hu%get_col_KeyError.
    apply encode_and_train_reraises; [|done].
    unfold encode_data, mbind, M_bind, lift. by rewrite print_run, Hs, Hu.
  - intros s u Hs Hu Ht%get_col_KeyError.
    apply encode_and_train_reraises; [|done].
    unfold encode_data, mbind, M_bind, lift.
    rewrite print_run, Hs, Hu, print_run, Ht. by rewrite printed_printed.
Qed.

Lemma encode_and_train_does_not_catch_KeyError_witness :
  encode_and_train C6_nodes (MkFrame 1 [("source", ["A"]); ("target_id", ["B"])])
    initial_world
  = (Raise (KeyError "source_id"), printed initial_world [OutDirectComparison]).
Proof.
  apply (proj1 (proj2 (encode_and_train_does_not_catch_KeyError C6_nodes
                         (MkFrame 1 [("source", ["A"]); ("target_id", ["B"])])
                         initial_world))).
  by_compute.
Defined.

Lemma lookup_col_filter_names {C} (labels : list string) n
    (cols : list (string * C)) :
  n ∉ labels →
  lookup_col n (filter (λ nc : string * C, nc.1 ∉ labels) cols)
  = lookup_col n cols.
Proof.
  intros Hn. induction cols as [|[k c] cols IH]; [done|].
  rewrite filter_cons. simpl. destruct (decide (k = n)) as [->|Hne].
  - rewrite decide_True by done. simpl. by rewrite decide_True.
  - destruct (decide (k ∉ labels)); simpl; [|done]. by rewrite decide_False.
Qed.

Lemma numeric_columns_lookup cols vs n v :
  numeric_columns cols = Ok vs →
  lookup_col n cols = Some (Codes v) →
  ∃ j, vs !! j = Some v ∧ j < length vs.
Proof.
  revert vs. induction cols as [|[k c] cols IH]; intros vs Hvs Hl; [done|].
  simpl in Hvs, Hl. destruct c as [x|x]; simpl in Hvs; [done|].
  destruct (numeric_columns cols) as [vs'|] eqn:Hc; simpl in Hvs; [|done].
  injection Hvs as <-. destruct (decide (k = n)) as [->|Hne].
  - injection Hl as ->. exists 0. simpl. split; [done|lia].
  - destruct (IH vs' eq_refl Hl) as (j & Hj & Hlt). exists (S j). simpl.
    split; [done|lia].
Qed.

Lemma lookup_map {A B} (f : A → B) (l : list A) i :
  map f l !! i = f <$> (l !! i).
Proof. revert i. induction l as [|a l IH]; intros [|i]; simpl; auto. Qed.

(** The target is one of the features: [main] drops only [user_id] and
    [user_idx] before it builds [node_features], so the codes of
    [reported_risk], which it then uses as [y], are a column of the feature
    matrix, in every row. *)
Theorem node_features_contain_the_target
    (nodes : Frame EncCol) (features : Tensor) (risk : list nat) :
  feature_rows nodes = Ok features →
  get_col "reported_risk" nodes = Ok (Codes risk) →
  ∃ j, j < (shape features).2
       ∧ (shape features).1 = nrows nodes
       ∧ length (rows features) = nrows nodes
       ∧ ∀ i row, rows features !! i = Some row →
                  row !! j = Some (risk !!! i).
Proof.
  intros Hf Hr%get_col_Ok. unfold feature_rows, drop_columns in Hf.
  destruct (filter (λ l, l ∉ names nodes) ["user_id"; "user_idx"]);
    simpl in Hf; [|done].
  unfold frame_values in Hf. simpl in Hf.
  destruct (numeric_columns
              (filter (λ nc : string * EncCol, nc.1 ∉ ["user_id"; "user_idx"])
                 (columns nodes))) as [cols|] eqn:Hc; simpl in Hf; [|done].
  injection Hf as <-. simpl.
  destruct (numeric_columns_lookup _ _ "reported_risk" risk Hc) as (j & Hj & Hlt).
  { rewrite lookup_col_filter_names; [done|]. by_compute. }
  exists j. split_and!; [done|done|by rewrite length_map, length_seq|].
  intros i row Hi. rewrite lookup_map in Hi.
  destruct (seq 0 (nrows nodes) !! i) as [i'|] eqn:Hi'; [|done].
  apply lookup_seq in Hi' as [-> _]. simpl in Hi. injection Hi as <-.
  by rewrite lookup_map, Hj.
Qed.

Lemma node_features_contain_the_target_witness :
  ∃ nodes features,
    feature_rows nodes = Ok features
    ∧ get_col "reported_risk" nodes = Ok (Codes [0; 1])
    ∧ ∃ j, ∀ i row, rows features !! i = Some row →
                    row !! j = Some ([0; 1] !!! i).
Proof.
  set (nodes := MkFrame 2 [("user_id", Text ["B"; "A"]);
                           ("reported_risk", Codes [0; 1]);
                           ("user_idx", Codes [1; 0])]).
  destruct (node_features_contain_the_target nodes
              (MkTensor (2, 1) [[0]; [1]]) [0; 1] eq_refl eq_refl)
    as (j & _ & _ & _ & Hj).
  exists nodes, (MkTensor (2, 1) [[0]; [1]]).
  split; [reflexivity|]. split; [reflexivity|]. exists j. exact Hj.
Defined.

Lemma map_epochs first n :
  map (λ e, OutEpoch (e + 1)) (seq first n) = map OutEpoch (seq (S first) n).
Proof.
  revert first. induction n as [|n IH]; intros first; simpl; [done|].
  rewrite IH. do 2 f_equal. lia.
Qed.



(** [preprocess] keeps the shape of both tables and turns every value into
    its [str]; on the tables [load_data] returned this leaves the three
    identifier columns as [load_data] normalised them, so the edges that
    were kept still have both endpoints among the node identifiers when
    [encode_data] starts. *)
Theorem preprocess_keeps_normalised_identifiers
    (nodes edges : Frame (list Cell)) (w : World) (u s t : list Cell) :
  get_col "user_id" nodes = Ok u →
  get_col "source_id" edges = Ok s →
  get_col "target_id" edges = Ok t →
  ∃ nodes' valid_edges w' user_id source_id target_id,
    load_data nodes edges w = (Ok (nodes', valid_edges), w')
    ∧ get_col "user_id" nodes' = Ok (map CStr user_id)
    ∧ get_col "source_id" valid_edges = Ok (map CStr source_id)
    ∧ get_col "target_id" valid_edges = Ok (map CStr target_id)
    ∧ get_col "user_id" (preprocess nodes' valid_edges).1 = Ok user_id
    ∧ get_col "source_id" (preprocess nodes' valid_edges).2 = Ok source_id
    ∧ get_col "target_id" (preprocess nodes' valid_edges).2 = Ok target_id
    ∧ source_id ⊆ user_id ∧ target_id ⊆ user_id
    ∧ names (preprocess nodes' valid_edges).1 = names nodes'
    ∧ names (preprocess nodes' valid_edges).2 = names valid_edges
    ∧ nrows (preprocess nodes' valid_edges).1 = nrows nodes'
    ∧ nrows (preprocess nodes' valid_edges).2 = nrows valid_edges.
Proof.
  intros Hu Hs Ht.
  set (mask := valid_mask (normalize u) (normalize s) (normalize t)).
  eexists _, _, _, (normalize u), (mask_select mask (normalize s)),
    (mask_select mask (normalize t)).
  split; [by apply load_data_run|]. fold mask. split_and!.
  - apply get_col_Ok. simpl. apply lookup_assign_eq.
  - rewrite <-mask_select_map. apply get_col_select_rows, normalized_source.
  - rewrite <-mask_select_map. apply get_col_select_rows, normalized_target.
  - apply loaded_user_id.
  - apply loaded_source_id.
  - apply loaded_target_id.
  - apply kept_sources_known.
  - apply kept_targets_known.
  - apply names_astype_str.
  - apply names_astype_str.
  - done.
  - done.
Qed.

Lemma preprocess_keeps_normalised_identifiers_witness :
  ∃ nodes' valid_edges w',
    load_data C1_nodes C1_edges initial_world = (Ok (nodes', valid_edges), w')
    ∧ get_col "user_id" (preprocess nodes' valid_edges).1 = Ok ["A"; "B"]
    ∧ get_col "source_id" (preprocess nodes' valid_edges).2 = Ok ["A"].
Proof.
  destruct (preprocess_keeps_normalised_identifiers C1_nodes C1_edges
              initial_world [CStr "A"; CStr "B"] [CStr "A"; CStr "A"]
              [CStr "B"; CStr "C"] eq_refl eq_refl eq_refl)
    as (n' & e' & w' & ids & ks & kt & Hrun & _).
  exists n', e', w'. split; [exact Hrun|].
  vm_compute in Hrun. injection Hrun as <- <- _.
  split; vm_compute; reflexivity.
Defined.
